(** * slogpretty: a shallow embedding of the [SlogPretty] handler

    The development follows [handler.go] (type [SlogPretty]), the options
    file ([DefaultTimeFormat], [Options], [DefaultOptions]) and the colour
    helpers ([colorize] and the colour codes).

    Go strings and byte slices are sequences of bytes: both are [string]
    here.  Objects reached through pointers ([*SlogPretty], [*Options],
    [*sync.Mutex], the [io.Writer] behind [out]) live in a store, the
    [World], and the methods with effects run in a small state monad over
    it.  The parts of the Go standard library the handler calls are
    collected in [Runtime] (text formatting) and in module [slog] (the
    [log/slog] data types). *)

From Stdlib Require Import ZArith String Ascii List Bool Lia.
From Stdlib Require Import Numbers.DecimalString.
From stdpp Require Import base list.

Import ListNotations.
Set Warnings "-register-all".
Local Open Scope string_scope.
Local Open Scope Z_scope.

(** [[]byte] buffers and Go strings. *)
Definition bytes := string.

(** ** The Go library the handler is written against *)

(** [time.Time] as the nanoseconds elapsed since the zero instant;
    [IsZero] holds of the zero instant only. *)
Definition Time := Z.
Definition Time_IsZero (t : Time) : bool := t =? 0.

(** An [error] is nil ([None]) or carries its message. *)
Definition error := option string.

(** [strconv.Itoa] / [strconv.FormatInt(_, 10)]. *)
Definition Itoa (z : Z) : string := NilZero.string_of_int (Z.to_int z).

(** [strings.Repeat]. *)
Fixpoint Repeat (s : string) (count : nat) : string :=
  match count with
  | O => ""
  | S n => s ++ Repeat s n
  end.

(** Text formatting that the handler delegates to the standard library. *)
Record Runtime := {
  (** [t.Format(layout)] *)
  time_Format : string -> Time -> string;
  (** [t.String()] *)
  time_String : Time -> string;
  (** [strconv.FormatFloat(f, 'g', -1, 64)], on the IEEE bits of [f] *)
  float_String : Z -> string;
  (** [time.Duration.String], on the nanosecond count *)
  duration_String : Z -> string;
  (** [==] on two [float64], on their IEEE bits *)
  float_eqb : Z -> Z -> bool;
  (** [fmt.Sprintf("%q", s)] *)
  strconv_Quote : string -> string;
  (** [runtime.CallersFrames([]uintptr{pc}).Next()]: file and line *)
  callerFrame : Z -> string * Z;
  (** [filepath.Base] *)
  filepath_Base : string -> string
}.

Module slog.

(** [slog.Level] and its four named levels. *)
Definition Level := Z.
Definition LevelDebug : Level := -4.
Definition LevelInfo : Level := 0.
Definition LevelWarn : Level := 4.
Definition LevelError : Level := 8.

(** [fmt.Sprintf("%+d", val)] *)
Definition signed (val : Z) : string :=
  if 0 <=? val then "+" ++ Itoa val else Itoa val.

(** [Level.String]. *)
Definition Level_String (l : Level) : string :=
  let str (base : string) (val : Z) :=
    if val =? 0 then base else base ++ signed val in
  if l <? LevelInfo then str "DEBUG" (l - LevelDebug)
  else if l <? LevelWarn then str "INFO" (l - LevelInfo)
  else if l <? LevelError then str "WARN" (l - LevelWarn)
  else str "ERROR" (l - LevelError).

(** A value of interface type [any]: nil, or a boxed value of which the
    model keeps the dynamic type name ([%T]) and the text [fmt.Sprint]
    gives. *)
Inductive any := nil | boxed (typ repr : string).

Definition any_eqb (x y : any) : bool :=
  match x, y with
  | nil, nil => true
  | boxed t1 r1, boxed t2 r2 => String.eqb t1 t2 && String.eqb r1 r2
  | _, _ => false
  end.

Definition any_Sprint (x : any) : string :=
  match x with
  | nil => "<nil>"
  | boxed _ repr => repr
  end.

Definition any_typ (x : any) : string :=
  match x with
  | nil => "<nil>"
  | boxed typ _ => typ
  end.

(** [slog.Value], one constructor per [Kind].  A [LogValuer] is kept with
    the object itself and the value its [LogValue] method returns; that
    method is taken to depend on the object alone and to end in a value
    that is not deferred after finitely many calls. *)
Inductive Value :=
| StringValue (s : string)
| Int64Value (i : Z)
| Uint64Value (u : Z)
| Float64Value (bits : Z)
| BoolValue (b : bool)
| DurationValue (d : Z)
| TimeValue (t : Time)
| GroupValue (attrs : list (string * Value))
| AnyValue (x : any)
| LogValuerValue (x : any) (v : Value).

(** [slog.Attr]: a key and a value. *)
Definition Attr : Type := string * Value.
Definition Key (a : Attr) : string := fst a.
Definition Val (a : Attr) : Value := snd a.

Inductive Kind :=
| KindAny | KindBool | KindDuration | KindFloat64 | KindInt64
| KindString | KindTime | KindUint64 | KindGroup | KindLogValuer.

Definition Value_Kind (v : Value) : Kind :=
  match v with
  | StringValue _ => KindString
  | Int64Value _ => KindInt64
  | Uint64Value _ => KindUint64
  | Float64Value _ => KindFloat64
  | BoolValue _ => KindBool
  | DurationValue _ => KindDuration
  | TimeValue _ => KindTime
  | GroupValue _ => KindGroup
  | AnyValue _ => KindAny
  | LogValuerValue _ _ => KindLogValuer
  end.

(** The zero [Attr]: empty key, and the zero [Value], which is of kind
    [KindAny] and holds nil. *)
Definition zeroAttr : Attr := ("", AnyValue nil).

Definition maxLogValues : nat := 100.

(** The loop of [Value.Resolve]: at most [i] calls of [LogValue]. *)
Fixpoint resolveLoop (orig : Value) (i : nat) (v : Value) : Value :=
  match i with
  | O =>
      AnyValue (boxed "*errors.errorString"
        ("LogValue called too many times on Value of type " ++
         match orig with
         | LogValuerValue x _ => any_typ x
         | _ => "<nil>"
         end))
  | S i' =>
      match v with
      | LogValuerValue _ v' => resolveLoop orig i' v'
      | _ => v
      end
  end.

(** [Value.Resolve]. *)
Definition Resolve (v : Value) : Value := resolveLoop v maxLogValues v.

(** [Value.Equal] and [Attr.Equal]. *)
Fixpoint Value_Equal (rt : Runtime) (v w : Value) {struct v} : bool :=
  match v, w with
  | Int64Value a, Int64Value b => a =? b
  | Uint64Value a, Uint64Value b => a =? b
  | BoolValue a, BoolValue b => Bool.eqb a b
  | DurationValue a, DurationValue b => a =? b
  | StringValue a, StringValue b => String.eqb a b
  | Float64Value a, Float64Value b => float_eqb rt a b
  | TimeValue a, TimeValue b => a =? b
  | AnyValue a, AnyValue b => any_eqb a b
  | LogValuerValue a _, LogValuerValue b _ => any_eqb a b
  | GroupValue l1, GroupValue l2 =>
      (fix all2 (l1 l2 : list (string * Value)) : bool :=
         match l1, l2 with
         | [], [] => true
         | (k1, v1) :: t1, (k2, v2) :: t2 =>
             String.eqb k1 k2 && Value_Equal rt v1 v2 && all2 t1 t2
         | _, _ => false
         end) l1 l2
  | _, _ => false
  end.

Definition Attr_Equal (rt : Runtime) (a b : Attr) : bool :=
  String.eqb (Key a) (Key b) && Value_Equal rt (Val a) (Val b).

(** [slog.Record]: what the handler reads of it.  The [Attrs] iterator
    visits [Attrs] from left to right and [NumAttrs] is their number. *)
Record Record_ := {
  Time_ : Time;
  Message : string;
  Level_ : Level;
  PC : Z;
  Attrs : list Attr
}.

Definition NumAttrs (r : Record_) : nat := length (Attrs r).

End slog.

Import slog.

(** [Value.String], for the kinds on which the handler calls it. *)
Fixpoint Value_String (rt : Runtime) (v : Value) : string :=
  match v with
  | StringValue s => s
  | Int64Value i => Itoa i
  | Uint64Value u => Itoa u
  | Float64Value f => float_String rt f
  | BoolValue b => if b then "true" else "false"
  | DurationValue d => duration_String rt d
  | TimeValue t => time_String rt t
  | GroupValue attrs =>
      "[" ++ String.concat " "
               (List.map (fun a => fst a ++ "=" ++ Value_String rt (snd a)) attrs)
          ++ "]"
  | AnyValue x => any_Sprint x
  | LogValuerValue x _ => any_Sprint x
  end.

(** ** Colours *)

Definition esc : string := String (ascii_of_nat 27) "".
Definition reset : string := esc ++ "[0m".

Definition black : Z := 30.
Definition red : Z := 31.
Definition green : Z := 32.
Definition yellow : Z := 33.
Definition blue : Z := 34.
Definition magenta : Z := 35.
Definition cyan : Z := 36.
Definition lightGray : Z := 37.
Definition darkGray : Z := 90.
Definition lightRed : Z := 91.
Definition lightGreen : Z := 92.
Definition lightYellow : Z := 93.
Definition lightBlue : Z := 94.
Definition lightMagenta : Z := 95.
Definition lightCyan : Z := 96.
Definition white : Z := 97.

Definition colorize (colorCode : Z) (v : string) : string :=
  esc ++ "[" ++ Itoa colorCode ++ "m" ++ v ++ reset.

(** ** Options *)

Definition DefaultTimeFormat : string := "2006-01-02 15:04:05.000".

Record Options := {
  Level : slog.Level;
  AddSource : bool;
  Colorful : bool;
  Multiline : bool;
  TimeFormat : string
}.

Definition set_TimeFormat (o : Options) (f : string) : Options :=
  {| Level := Level o; AddSource := AddSource o; Colorful := Colorful o;
     Multiline := Multiline o; TimeFormat := f |}.

(** ** The handler's types *)

Record groupOrAttrs := {
  group : string;
  attrs : list Attr
}.

(** Addresses of objects in the store. *)
Definition ptr := nat.

Record SlogPretty := {
  opts : Options;
  goas : list groupOrAttrs;
  out : ptr;
  mu : ptr
}.

Definition set_goas (h : SlogPretty) (g : list groupOrAttrs) : SlogPretty :=
  {| opts := opts h; goas := g; out := out h; mu := mu h |}.

(** ** Rendering *)

Definition nl : string := String (ascii_of_nat 10) "".

(** [fmt.Appendf(buf, "%-7s", s)]: [s] padded with spaces on the right up
    to seven characters (the level texts are ASCII, one byte a character). *)
Definition padRight7 (s : string) : string :=
  s ++ Repeat " " (7 - String.length s)%nat.

Section Rendering.

Context (rt : Runtime).

Definition setColorLevel (h : SlogPretty) (level : slog.Level) : string :=
  if level =? LevelDebug then colorize lightMagenta "DEBUG"
  else if level =? LevelInfo then colorize lightCyan "INFO"
  else if level =? LevelWarn then colorize lightYellow "WARN"
  else if level =? LevelError then colorize lightRed "ERROR"
  else Level_String level.

Definition appendHeader (h : SlogPretty) (buf : bytes) (r : Record_) : bytes :=
  (* Timestamp *)
  let buf :=
    if negb (Time_IsZero (Time_ r)) then
      let timeStr := time_Format rt (TimeFormat (opts h)) (Time_ r) in
      let timeStr :=
        if Colorful (opts h) then colorize lightGray timeStr else timeStr in
      buf ++ timeStr ++ " "
    else buf in
  (* Level *)
  let levelStr := setColorLevel h (Level_ r) in
  let buf := buf ++ padRight7 levelStr in
  (* Message *)
  let msg := Message r in
  let msg := colorize white msg in
  let buf := buf ++ " " ++ msg in
  (* Source location *)
  if AddSource (opts h) && negb (PC r =? 0) then
    let f := callerFrame rt (PC r) in
    let file := filepath_Base rt (fst f) in
    let source := "source: " ++ file ++ ":" ++ Itoa (snd f) in
    let source :=
      if Colorful (opts h) then colorize darkGray source else source in
    buf ++ " " ++ source
  else buf.

(** The body of [appendAttr]; [self] stands for the recursive calls on the
    members of a group.  [level] counts indentation steps and is never
    negative at any call. *)
Definition appendAttr_body
    (self : bytes -> Attr -> bool -> nat -> bytes)
    (h : SlogPretty) (buf : bytes) (a : Attr) (multiline : bool)
    (level : nat) : bytes :=
  (* Identation *)
  let indent := Repeat " " (2 * level) in
  let a : Attr := (Key a, Resolve (Val a)) in
  if Attr_Equal rt a zeroAttr then buf
  else
    let keyColor := if negb (Colorful (opts h)) then 0 else lightMagenta in
    let valColor := if negb (Colorful (opts h)) then 0 else lightBlue in
    match Val a with
    | StringValue s =>
        let val := s in
        if multiline then
          buf ++ indent ++ colorize keyColor (Key a) ++ ": "
              ++ colorize valColor val ++ nl
        else
          buf ++ " " ++ colorize keyColor (Key a) ++ "="
              ++ colorize valColor (strconv_Quote rt val)
    | TimeValue t =>
        let val := time_Format rt (TimeFormat (opts h)) t in
        if multiline then
          buf ++ indent ++ colorize keyColor (Key a) ++ ": "
              ++ colorize valColor val ++ nl
        else
          buf ++ " " ++ colorize keyColor (Key a) ++ "="
              ++ colorize valColor (strconv_Quote rt val)
    | Int64Value _ | Uint64Value _ | Float64Value _ | BoolValue _ =>
        let val := Value_String rt (Val a) in
        if multiline then
          buf ++ indent ++ colorize keyColor (Key a) ++ ": "
              ++ colorize valColor val ++ nl
        else
          buf ++ " " ++ colorize keyColor (Key a) ++ "="
              ++ colorize valColor val
    | DurationValue _ =>
        let val := Value_String rt (Val a) in
        if multiline then
          buf ++ indent ++ colorize keyColor (Key a) ++ ": "
              ++ colorize valColor val ++ nl
        else
          buf ++ " " ++ colorize keyColor (Key a) ++ "="
              ++ colorize valColor val
    | GroupValue attrs =>
        if (length attrs =? 0)%nat then buf
        else if multiline then
          let buf := buf ++ indent ++ colorize keyColor (Key a) ++ ":" ++ nl in
          fold_left (fun buf ga => self buf ga multiline (level + 1)%nat)
                    attrs buf
        else
          let buf := buf ++ " " ++ colorize keyColor (Key a) ++ ":" in
          fold_left (fun buf ga => self buf ga multiline 2%nat) attrs buf
    | AnyValue _ | LogValuerValue _ _ =>
        if multiline then
          buf ++ indent ++ colorize keyColor (Key a) ++ ": "
              ++ colorize valColor (Value_String rt (Val a)) ++ nl
        else
          buf ++ " " ++ colorize keyColor (Key a) ++ "="
              ++ colorize valColor (Value_String rt (Val a))
    end.

(** Nesting depth of a value: it bounds the depth of the recursion. *)
Fixpoint depth (v : Value) : nat :=
  match v with
  | GroupValue attrs => S (list_max (List.map (fun a => depth (snd a)) attrs))
  | LogValuerValue _ v' => S (depth v')
  | _ => O
  end.

Fixpoint appendAttr_rec (n : nat) (h : SlogPretty) (buf : bytes) (a : Attr)
    (multiline : bool) (level : nat) : bytes :=
  match n with
  | O => buf
  | S n' =>
      appendAttr_body (fun b ga => appendAttr_rec n' h b ga)
                      h buf a multiline level
  end.

(** [appendAttr]: the recursion of the source, unrolled as often as the
    attribute is deep; [appendAttr_unfold] below gives its equation. *)
Definition appendAttr (h : SlogPretty) (buf : bytes) (a : Attr)
    (multiline : bool) (level : nat) : bytes :=
  appendAttr_rec (S (depth (Val a))) h buf a multiline level.

Definition appendMultilineGroupOrAttrs (h : SlogPretty) (buf : bytes)
    (level : nat) : bytes :=
  fst (fold_left
         (fun (st : bytes * nat) goa =>
            let '(buf, level) := st in
            if negb (String.eqb (group goa) "") then
              (buf ++ Repeat "  " level ++ colorize magenta (group goa) ++ ":",
               (level + 1)%nat)
            else
              let buf :=
                if (0 <? length (attrs goa))%nat then buf ++ nl else buf in
              (fold_left (fun buf a => appendAttr h buf a true level)
                         (attrs goa) buf,
               level))
         (goas h) (buf, level)).

Definition appendMultilineAttrs (h : SlogPretty) (buf : bytes)
    (r : Record_) : bytes :=
  let attrCount := fold_left (fun n _ => S n) (Attrs r) O in
  if (attrCount =? 0)%nat then buf
  else
    let buf := buf ++ nl in
    fold_left (fun buf a => appendAttr h buf a true 1%nat) (Attrs r) buf.

Definition appendInLineAttrs (h : SlogPretty) (buf : bytes)
    (r : Record_) : bytes :=
  let buf :=
    fold_left
      (fun buf goa =>
         let buf :=
           if negb (String.eqb (group goa) "") then
             if Colorful (opts h) then
               buf ++ " " ++ colorize cyan (group goa) ++ ":"
             else buf ++ " " ++ group goa ++ ":"
           else buf in
         fold_left (fun buf attr => appendAttr h buf attr false 0%nat)
                   (attrs goa) buf)
      (goas h) buf in
  fold_left (fun buf a => appendAttr h buf a false 0%nat) (Attrs r) buf.

End Rendering.

(** ** The store and the monad of the effectful methods *)

(** An [io.Writer] over a byte stream: [accept] decides, from what the
    stream holds and the slice offered, how many bytes [Write] takes and
    which error it returns; the bytes taken are appended to [stream]. *)
Record Writer := {
  accept : bytes -> bytes -> nat * error;
  stream : bytes
}.

Fixpoint prefix (n : nat) (p : bytes) : bytes :=
  match n, p with
  | S n', String c p' => String c (prefix n' p')
  | _, _ => ""
  end.

(** What happens to mutexes and writers, in order. *)
Inductive Event :=
| EvLock (m : ptr)
| EvWrite (w : ptr) (p : bytes)
| EvUnlock (m : ptr).

Record World := {
  handlers : list SlogPretty;
  options : list Options;
  mutexes : list bool;
  writers : list Writer;
  events : list Event
}.

(** A computation on the store; [None] is a run that gives no result: a nil
    or dangling pointer is dereferenced, an unlocked mutex is unlocked, or
    a held mutex is locked again by the one thread the model has. *)
Definition M (A : Type) : Type := World -> option (A * World).

Definition ret {A} (a : A) : M A := fun w => Some (a, w).

Definition bind {A B} (c : M A) (k : A -> M B) : M B :=
  fun w => match c w with
           | Some (a, w') => k a w'
           | None => None
           end.

Notation "'let*' x ':=' c 'in' k" := (bind c (fun x => k))
  (at level 10, x name, c at level 100, k at level 200).
Notation "'run' c 'in' k" := (bind c (fun _ => k))
  (at level 10, c at level 100, k at level 200).

Definition loadHandler (p : ptr) : M SlogPretty :=
  fun w => match handlers w !! p with
           | Some h => Some (h, w)
           | None => None
           end.

Definition storeHandler (p : ptr) (h : SlogPretty) : M unit :=
  fun w => match handlers w !! p with
           | Some _ =>
               Some (tt, {| handlers := <[p := h]> (handlers w);
                            options := options w; mutexes := mutexes w;
                            writers := writers w; events := events w |})
           | None => None
           end.

Definition newHandler (h : SlogPretty) : M ptr :=
  fun w => Some (length (handlers w),
                 {| handlers := handlers w ++ [h];
                    options := options w; mutexes := mutexes w;
                    writers := writers w; events := events w |}).

Definition loadOptions (p : ptr) : M Options :=
  fun w => match options w !! p with
           | Some o => Some (o, w)
           | None => None
           end.

Definition storeOptions (p : ptr) (o : Options) : M unit :=
  fun w => match options w !! p with
           | Some _ =>
               Some (tt, {| handlers := handlers w;
                            options := <[p := o]> (options w);
                            mutexes := mutexes w;
                            writers := writers w; events := events w |})
           | None => None
           end.

Definition newOptions (o : Options) : M ptr :=
  fun w => Some (length (options w),
                 {| handlers := handlers w;
                    options := options w ++ [o]; mutexes := mutexes w;
                    writers := writers w; events := events w |}).

(** [&sync.Mutex{}]: a new, unlocked mutex. *)
Definition newMutex : M ptr :=
  fun w => Some (length (mutexes w),
                 {| handlers := handlers w; options := options w;
                    mutexes := mutexes w ++ [false];
                    writers := writers w; events := events w |}).

Definition Lock (m : ptr) : M unit :=
  fun w => match mutexes w !! m with
           | Some false =>
               Some (tt, {| handlers := handlers w; options := options w;
                            mutexes := <[m := true]> (mutexes w);
                            writers := writers w;
                            events := events w ++ [EvLock m] |})
           | _ => None
           end.

Definition Unlock (m : ptr) : M unit :=
  fun w => match mutexes w !! m with
           | Some true =>
               Some (tt, {| handlers := handlers w; options := options w;
                            mutexes := <[m := false]> (mutexes w);
                            writers := writers w;
                            events := events w ++ [EvUnlock m] |})
           | _ => None
           end.

(** [out.Write(p)]: the count and the error the writer returns. *)
Definition Write (o : ptr) (p : bytes) : M (nat * error) :=
  fun w => match writers w !! o with
           | Some wr =>
               let res := accept wr (stream wr) p in
               Some (res,
                     {| handlers := handlers w; options := options w;
                        mutexes := mutexes w;
                        writers :=
                          <[o := {| accept := accept wr;
                                    stream := stream wr ++ prefix (fst res) p |}]>
                            (writers w);
                        events := events w ++ [EvWrite o p] |})
           | None => None
           end.

(** ** The handler's methods *)

Definition DefaultOptions : M ptr :=
  newOptions {| Level := LevelInfo; AddSource := false; Colorful := true;
                Multiline := false; TimeFormat := DefaultTimeFormat |}.

(** [New(out, opts)]; a nil [opts] is [None]. *)
Definition New (out : ptr) (opts : option ptr) : M ptr :=
  let* opts := match opts with
          | None => DefaultOptions
          | Some p => ret p
          end in
  let* o := loadOptions opts in
  run (if String.eqb (TimeFormat o) "" then
         storeOptions opts (set_TimeFormat o DefaultTimeFormat)
       else ret tt) in
  let* m := newMutex in
  let* o := loadOptions opts in
  newHandler {| out := out; mu := m; opts := o; goas := [] |}.

Definition Enabled (h : SlogPretty) (level : slog.Level) : bool :=
  level >=? Level (opts h).

(** The zero [groupOrAttrs], with which [make] fills a new slice. *)
Definition zeroGoa : groupOrAttrs := {| group := ""; attrs := [] |}.

(** The builtin [copy(dst, src)]: what [dst] holds afterwards. *)
Definition copy {A} (dst src : list A) : list A :=
  take (length dst) src ++ drop (length src) dst.

Definition withGroupOrAttrs (hp : ptr) (goa : groupOrAttrs) : M ptr :=
  let* h := loadHandler hp in
  let g := replicate (length (goas h) + 1) zeroGoa in
  let g := copy g (goas h) in
  let g := <[(length g - 1)%nat := goa]> g in
  newHandler (set_goas h g).

Definition WithAttrs (hp : ptr) (attrs : list Attr) : M ptr :=
  if (length attrs =? 0)%nat then ret hp
  else withGroupOrAttrs hp {| group := ""; attrs := attrs |}.

Definition WithGroup (hp : ptr) (name : string) : M ptr :=
  if String.eqb name "" then ret hp
  else withGroupOrAttrs hp {| group := name; attrs := [] |}.

(** The loop of [removeEmptyGroup] on the value of [h.goas]; every turn
    shortens the slice, so [length (goas h)] turns are enough (see
    [trimLoop_done]). *)
Fixpoint trimLoop (turns : nat) (g : list groupOrAttrs) : list groupOrAttrs :=
  match turns with
  | O => g
  | S turns' =>
      match g !! (length g - 1)%nat with
      | Some goa =>
          if (0 <? length g)%nat && negb (String.eqb (group goa) "") then
            trimLoop turns' (take (length g - 1) g)
          else g
      | None => g
      end
  end.

Definition removeEmptyGroup (hp : ptr) (r : Record_) : M unit :=
  if (NumAttrs r =? 0)%nat then
    let* h := loadHandler hp in
    storeHandler hp (set_goas h (trimLoop (length (goas h)) (goas h)))
  else ret tt.

Section Handle.

Context (rt : Runtime).

(** The line [Handle] builds, from the handler as it is after
    [removeEmptyGroup]. *)
Definition renderLine (h0 h : SlogPretty) (r : Record_) : bytes :=
  let buf := "" in
  let buf := appendHeader rt h0 buf r in
  let buf :=
    if Multiline (opts h) then
      let buf := appendMultilineGroupOrAttrs rt h buf 1 in
      appendMultilineAttrs rt h buf r
    else appendInLineAttrs rt h buf r in
  buf ++ nl.

Definition Handle (hp : ptr) (r : Record_) : M error :=
  let* h0 := loadHandler hp in
  run removeEmptyGroup hp r in
  let* h := loadHandler hp in
  let buf := renderLine h0 h r in
  run Lock (mu h) in
  let* res := Write (out h) buf in
  (* deferred *)
  run Unlock (mu h) in
  ret (snd res).

(** [slog.Logger.log] over this handler: the record is built and handed
    to [Handle] only when [Enabled] admits its level, and the result of
    [Handle] is dropped. *)
Definition Logger_log (hp : ptr) (r : Record_) : M unit :=
  let* h := loadHandler hp in
  if negb (Enabled h (Level_ r)) then ret tt
  else run Handle hp r in ret tt.

End Handle.

(** ** Sample data for the concrete runs *)

Definition dquote : string := String (ascii_of_nat 34) "".

(** [strconv.Quote] on printable ASCII text: the text between double
    quotes, with a backslash before each double quote and backslash. *)
Fixpoint quoteBody (s : string) : string :=
  match s with
  | EmptyString => EmptyString
  | String c s' =>
      (if Ascii.eqb c (ascii_of_nat 34) || Ascii.eqb c (ascii_of_nat 92)
       then String (ascii_of_nat 92) (String c "")
       else String c "") ++ quoteBody s'
  end.

(** Go's reference instant, 2006-01-02 15:04:05 UTC, in nanoseconds. *)
Definition refTime : Time := 63271811045000000000.

(** The library on the inputs of the sample runs: a time at the reference
    instant prints as the layout itself, and the texts are printable ASCII.
    Floats, durations and caller frames do not occur in them. *)
Definition sampleRuntime : Runtime := {|
  time_Format := fun layout _ => layout;
  time_String := fun _ => "2006-01-02 15:04:05 +0000 UTC";
  float_String := fun _ => "0";
  duration_String := fun _ => "0s";
  float_eqb := Z.eqb;
  strconv_Quote := fun s => dquote ++ quoteBody s ++ dquote;
  callerFrame := fun _ => ("main.go", 1);
  filepath_Base := fun s => s
|}.

(** A sink that takes every byte offered. *)
Definition okWriter : Writer :=
  {| accept := fun _ p => (String.length p, None); stream := "" |}.

(** A sink that takes three bytes of each slice and then fails. *)
Definition shortWriter : Writer :=
  {| accept := fun _ p => (3%nat, Some "short write"); stream := "" |}.

Definition plainOptions : Options :=
  {| Level := LevelInfo; AddSource := false; Colorful := false;
     Multiline := false; TimeFormat := DefaultTimeFormat |}.

(** One handler, at address 0, writing to [wr] under mutex 0. *)
Definition worldOf (o : Options) (g : list groupOrAttrs) (wr : Writer) : World :=
  {| handlers := [ {| opts := o; goas := g; out := 0%nat; mu := 0%nat |} ];
     options := []; mutexes := [false]; writers := [wr]; events := [] |}.

(** [slog.Info("Server started", "port", 8080)] at the reference instant. *)
Definition serverStarted : Record_ :=
  {| Time_ := refTime; Message := "Server started"; Level_ := LevelInfo;
     PC := 0; Attrs := [("port", Int64Value 8080)] |}.

(** The streams of the writers after a run, if it gives a result. *)
Definition written {A} (res : option (A * World)) : list bytes :=
  match res with
  | Some (_, w) => List.map stream (writers w)
  | None => []
  end.

Definition emptyRecord : Record_ :=
  {| Time_ := refTime; Message := "ping"; Level_ := LevelInfo;
     PC := 0; Attrs := [] |}.

Definition debugRecord : Record_ :=
  {| Time_ := refTime; Message := "probe"; Level_ := LevelDebug;
     PC := 0; Attrs := [] |}.

Definition userGroup : groupOrAttrs := {| group := "user"; attrs := [] |}.

Definition idBob : list Attr := [("id", StringValue "bob")].

Definition sampleHandler (o : Options) : SlogPretty :=
  {| opts := o; goas := []; out := 0%nat; mu := 0%nat |}.

(** Whether a text holds the escape byte. *)
Fixpoint hasEscape (s : string) : bool :=
  match s with
  | EmptyString => false
  | String c s' => Ascii.eqb c (ascii_of_nat 27) || hasEscape s'
  end.

(** ** The chain as the tagged union of the specification *)

Inductive ChainElem :=
| GroupMarker (name : string)
| AttrsBatch (batch : list Attr).

(** How the handler tells the two apart: by a non-empty [group]. *)
Definition elemOf (goa : groupOrAttrs) : ChainElem :=
  if String.eqb (group goa) "" then AttrsBatch (attrs goa)
  else GroupMarker (group goa).

Definition isMarker (e : ChainElem) : bool :=
  match e with
  | GroupMarker _ => true
  | AttrsBatch _ => false
  end.

Fixpoint dropWhile {A} (p : A -> bool) (l : list A) : list A :=
  match l with
  | [] => []
  | x :: l' => if p x then dropWhile p l' else l
  end.

(** The effective chain in the words of the specification: markers are
    popped from the tail as long as the tail is a marker. *)
Definition spec_effectiveChain (chain : list ChainElem) : list ChainElem :=
  rev (dropWhile isMarker (rev chain)).

(** The value [removeEmptyGroup] leaves in [h.goas], which is the chain
    [Handle] then renders. *)
Definition effectiveChain (h : SlogPretty) (r : Record_) : list groupOrAttrs :=
  if (NumAttrs r =? 0)%nat then trimLoop (length (goas h)) (goas h)
  else goas h.

(** The chain of the handler at [p]. *)
Definition chainOf (w : World) (p : ptr) : option (list groupOrAttrs) :=
  match handlers w !! p with
  | Some h => Some (goas h)
  | None => None
  end.

(** The chain of the handler a derivation returns. *)
Definition derivedChain (res : option (ptr * World)) : option (list groupOrAttrs) :=
  match res with
  | Some (p, w) => chainOf w p
  | None => None
  end.

(** The store a run leaves; a run without result leaves the store it had. *)
Definition worldAfter {A} (w : World) (res : option (A * World)) : World :=
  match res with
  | Some (_, w') => w'
  | None => w
  end.

(** A chain with a batch under two trailing group markers. *)
Definition sampleChain : list groupOrAttrs :=
  [ {| group := ""; attrs := idBob |}; userGroup;
    {| group := "data_table"; attrs := [] |} ].

(** Options as a caller may leave them: no time format given. *)
Definition callerOptions : Options :=
  {| Level := LevelDebug; AddSource := false; Colorful := false;
     Multiline := true; TimeFormat := "" |}.

(** A store with the caller's options at address 0 and one sink. *)
Definition callerWorld : World :=
  {| handlers := []; options := [callerOptions]; mutexes := [];
     writers := [okWriter]; events := [] |}.

(** ** The earlier handler of [handler.go]: [SlogStylerHandler]

    It has no chain: [WithAttrs] and [WithGroup] hand back the receiver, and
    no method assigns to a field, so its methods are given on the value the
    receiver points to. *)

Module Styler.

Record SlogStylerHandler := {
  opts : Options;
  out : ptr;
  mu : ptr
}.

Definition Enabled (h : SlogStylerHandler) (level : slog.Level) : bool :=
  level >=? Level (opts h).

Definition WithAttrs (h : SlogStylerHandler) (attrs : list Attr)
  : SlogStylerHandler := h.

Definition WithGroup (h : SlogStylerHandler) (name : string)
  : SlogStylerHandler := h.

Section Rendering.

Context (rt : Runtime).

Definition setColorLevel (h : SlogStylerHandler) (level : slog.Level) : string :=
  if level =? LevelDebug then colorize lightMagenta "DEBUG"
  else if level =? LevelInfo then colorize lightCyan "INFO"
  else if level =? LevelWarn then colorize lightYellow "WARN"
  else if level =? LevelError then colorize lightRed "ERROR"
  else Level_String level.

(** The body of [appendAttr], with [self] at the recursive calls. *)
Definition appendAttr_body
    (self : bytes -> Attr -> bool -> nat -> bytes)
    (h : SlogStylerHandler) (buf : bytes) (a : Attr) (multiline : bool)
    (level : nat) : bytes :=
  (* Identation *)
  let indent := Repeat " " (2 * level) in
  let a : Attr := (Key a, Resolve (Val a)) in
  if Attr_Equal rt a zeroAttr then buf
  else
    let keyColor := if negb (Colorful (opts h)) then 0 else lightMagenta in
    let valColor := if negb (Colorful (opts h)) then 0 else lightBlue in
    match Val a with
    | StringValue s =>
        let val := s in
        if multiline then
          buf ++ indent ++ colorize keyColor (Key a) ++ ": "
              ++ colorize valColor val ++ nl
        else
          buf ++ " " ++ colorize keyColor (Key a) ++ "="
              ++ colorize valColor (strconv_Quote rt val)
    | TimeValue t =>
        let val := time_Format rt (TimeFormat (opts h)) t in
        if multiline then
          buf ++ indent ++ colorize keyColor (Key a) ++ ": "
              ++ colorize valColor val ++ nl
        else
          buf ++ " " ++ colorize keyColor (Key a) ++ "="
              ++ colorize valColor (strconv_Quote rt val)
    | Int64Value _ | Uint64Value _ | Float64Value _ | BoolValue _ =>
        let val := Value_String rt (Val a) in
        if multiline then
          buf ++ indent ++ colorize keyColor (Key a) ++ ": "
              ++ colorize valColor val ++ nl
        else
          buf ++ " " ++ colorize keyColor (Key a) ++ "="
              ++ colorize valColor val
    | DurationValue _ =>
        let val := Value_String rt (Val a) in
        if multiline then
          buf ++ indent ++ colorize keyColor (Key a) ++ ": "
              ++ colorize valColor val ++ nl
        else
          buf ++ " " ++ colorize keyColor (Key a) ++ "="
              ++ colorize valColor val
    | GroupValue attrs =>
        if (length attrs =? 0)%nat then buf
        else if multiline then
          let buf := buf ++ indent ++ colorize keyColor (Key a) ++ ":" ++ nl in
          fold_left (fun buf ga => self buf ga multiline (level + 1)%nat)
                    attrs buf
        else
          let buf := buf ++ " " ++ colorize keyColor (Key a) ++ ":" in
          fold_left (fun buf ga => self buf ga multiline 2%nat) attrs buf
    | AnyValue _ | LogValuerValue _ _ =>
        if multiline then
          buf ++ indent ++ colorize keyColor (Key a) ++ ": "
              ++ colorize valColor (Value_String rt (Val a)) ++ nl
        else
          buf ++ " " ++ colorize keyColor (Key a) ++ "="
              ++ colorize valColor (Value_String rt (Val a))
    end.

Fixpoint appendAttr_rec (n : nat) (h : SlogStylerHandler) (buf : bytes)
    (a : Attr) (multiline : bool) (level : nat) : bytes :=
  match n with
  | O => buf
  | S n' =>
      appendAttr_body (fun b ga => appendAttr_rec n' h b ga)
                      h buf a multiline level
  end.

(** [appendAttr], unrolled as often as the attribute is deep. *)
Definition appendAttr (h : SlogStylerHandler) (buf : bytes) (a : Attr)
    (multiline : bool) (level : nat) : bytes :=
  appendAttr_rec (S (depth (Val a))) h buf a multiline level.

Definition appendMultilineAttrs (h : SlogStylerHandler) (buf : bytes)
    (r : Record_) : bytes :=
  let attrCount := fold_left (fun n _ => S n) (Attrs r) O in
  if (attrCount =? 0)%nat then buf
  else
    let buf := buf ++ nl in
    fold_left (fun buf a => appendAttr h buf a true 1%nat) (Attrs r) buf.

Definition appendInLineAttrs (h : SlogStylerHandler) (buf : bytes)
    (r : Record_) : bytes :=
  fold_left (fun buf a => appendAttr h buf a false 0%nat) (Attrs r) buf.

(** The line [Handle] builds. *)
Definition renderLine (h : SlogStylerHandler) (r : Record_) : bytes :=
  let buf := "" in
  (* Timestamp *)
  let buf :=
    if negb (Time_IsZero (Time_ r)) then
      let timeStr := time_Format rt (TimeFormat (opts h)) (Time_ r) in
      let timeStr :=
        if Colorful (opts h) then colorize lightGray timeStr else timeStr in
      buf ++ timeStr ++ " "
    else buf in
  (* Level *)
  let levelStr := setColorLevel h (Level_ r) in
  let buf := buf ++ padRight7 levelStr in
  (* Message *)
  let msg := Message r in
  let msg := colorize white msg in
  let buf := buf ++ " " ++ msg in
  (* Source location *)
  let buf :=
    if AddSource (opts h) && negb (PC r =? 0) then
      let f := callerFrame rt (PC r) in
      let file := filepath_Base rt (fst f) in
      let source := "source: " ++ file ++ ":" ++ Itoa (snd f) in
      let source :=
        if Colorful (opts h) then colorize darkGray source else source in
      buf ++ " " ++ source
    else buf in
  (* Attributes *)
  let buf :=
    if Multiline (opts h) then appendMultilineAttrs h buf r
    else appendInLineAttrs h buf r in
  buf ++ nl.

Definition Handle (h : SlogStylerHandler) (r : Record_) : M error :=
  let buf := renderLine h r in
  let* _ := Lock (mu h) in
  let* res := Write (out h) buf in
  (* deferred *)
  let* _ := Unlock (mu h) in
  ret (snd res).

End Rendering.

End Styler.

(** ** Well-formed chains *)

(** An element as [WithGroup] or [WithAttrs] makes it: a name and no
    attributes, or attributes and no name. *)
Definition wfGoa (goa : groupOrAttrs) : Prop :=
  (group goa <> "" /\ attrs goa = []) \/ (group goa = "" /\ attrs goa <> []).

Definition wfChains (w : World) : Prop :=
  Forall (fun h => Forall wfGoa (goas h)) (handlers w).

(** Whether a chain is empty or ends in a batch of attributes. *)
Definition endsInBatch (g : list groupOrAttrs) : bool :=
  match last g with
  | Some goa => String.eqb (group goa) ""
  | None => true
  end.

(** Whether a text is a sequence of complete lines. *)
Definition wholeLines (s : string) : Prop :=
  s = "" \/ exists t, s = t ++ nl.

(** The number of group markers in a chain. *)
Definition markers (g : list groupOrAttrs) : nat :=
  length (List.filter (fun goa => negb (String.eqb (group goa) "")) g).

(** A record with its attributes taken away. *)
Definition withoutAttrs (r : Record_) : Record_ :=
  {| Time_ := Time_ r; Message := Message r; Level_ := Level_ r;
     PC := PC r; Attrs := [] |}.

(** ** The first handler, of the demonstration program: [ColorTextHandler]

    It writes one line per record and knows no multiline mode.  Its
    [Options] have the fields of the [Options] above.  As with the earlier
    handler, no method assigns to a field of the receiver. *)

Module ColorText.

Definition timeFormat : string := "2006-01-02 15:04:05.000".

Record ColorTextHandler := {
  opts : Options;
  out : ptr;
  mu : ptr
}.

Definition Enabled (h : ColorTextHandler) (level : slog.Level) : bool :=
  level >=? Level (opts h).

Definition WithAttrs (h : ColorTextHandler) (attrs : list Attr)
  : ColorTextHandler := h.

Definition WithGroup (h : ColorTextHandler) (name : string)
  : ColorTextHandler := h.

Section Rendering.

Context (rt : Runtime).

Definition setColorLevel (h : ColorTextHandler) (level : slog.Level) : string :=
  if level =? LevelDebug then colorize lightMagenta "DEBUG"
  else if level =? LevelInfo then colorize lightCyan "INFO"
  else if level =? LevelWarn then colorize lightYellow "WARN"
  else if level =? LevelError then colorize lightRed "ERROR"
  else Level_String level.

(** The body of [appendAttr], with [self] at the recursive calls. *)
Definition appendAttr_body (self : bytes -> Attr -> bytes)
    (h : ColorTextHandler) (buf : bytes) (a : Attr) : bytes :=
  let a : Attr := (Key a, Resolve (Val a)) in
  if Attr_Equal rt a zeroAttr then buf
  else
    let keyColor := if negb (Colorful (opts h)) then 0 else lightMagenta in
    let valColor := if negb (Colorful (opts h)) then 0 else lightBlue in
    match Val a with
    | StringValue s =>
        buf ++ " " ++ colorize keyColor (Key a) ++ "="
            ++ colorize valColor (strconv_Quote rt (Value_String rt (Val a)))
    | TimeValue t =>
        buf ++ " " ++ colorize keyColor (Key a) ++ "="
            ++ colorize valColor
                 (strconv_Quote rt (time_Format rt (TimeFormat (opts h)) t))
    | Int64Value _ | Uint64Value _ | Float64Value _ | BoolValue _ =>
        buf ++ " " ++ colorize keyColor (Key a) ++ "="
            ++ colorize valColor (Value_String rt (Val a))
    | DurationValue _ =>
        buf ++ " " ++ colorize keyColor (Key a) ++ "="
            ++ colorize valColor (Value_String rt (Val a))
    | GroupValue attrs =>
        if (length attrs =? 0)%nat then buf
        else
          let buf :=
            if negb (String.eqb (Key a) "") then
              buf ++ " " ++ colorize keyColor (Key a) ++ ":"
            else buf in
          fold_left (fun buf ga => self buf ga) attrs buf
    | AnyValue _ | LogValuerValue _ _ =>
        buf ++ " " ++ colorize keyColor (Key a) ++ "="
            ++ colorize valColor (Value_String rt (Val a))
    end.

Fixpoint appendAttr_rec (n : nat) (h : ColorTextHandler) (buf : bytes)
    (a : Attr) : bytes :=
  match n with
  | O => buf
  | S n' => appendAttr_body (fun b ga => appendAttr_rec n' h b ga) h buf a
  end.

(** [appendAttr], unrolled as often as the attribute is deep. *)
Definition appendAttr (h : ColorTextHandler) (buf : bytes) (a : Attr) : bytes :=
  appendAttr_rec (S (depth (Val a))) h buf a.

(** The line [Handle] builds: the caller, with its whole path, comes
    before the message. *)
Definition renderLine (h : ColorTextHandler) (r : Record_) : bytes :=
  let buf := "" in
  (* Timestamp *)
  let buf :=
    if negb (Time_IsZero (Time_ r)) then
      let timeStr := time_Format rt (TimeFormat (opts h)) (Time_ r) in
      let timeStr :=
        if Colorful (opts h) then colorize lightGray timeStr else timeStr in
      buf ++ timeStr ++ " "
    else buf in
  (* Level *)
  let levelStr := setColorLevel h (Level_ r) in
  let buf := buf ++ padRight7 levelStr in
  (* Source location *)
  let buf :=
    if AddSource (opts h) && negb (PC r =? 0) then
      let f := callerFrame rt (PC r) in
      let source := fst f ++ ":" ++ Itoa (snd f) in
      let source :=
        if Colorful (opts h) then colorize darkGray source else source in
      buf ++ " " ++ source
    else buf in
  (* Message *)
  let msg := Message r in
  let msg := colorize white msg in
  let buf := buf ++ " " ++ msg in
  (* Attributes *)
  let buf := fold_left (fun buf a => appendAttr h buf a) (Attrs r) buf in
  buf ++ nl.

Definition Handle (h : ColorTextHandler) (r : Record_) : M error :=
  let buf := renderLine h r in
  let* _ := Lock (mu h) in
  let* res := Write (out h) buf in
  (* deferred *)
  let* _ := Unlock (mu h) in
  ret (snd res).

End Rendering.

End ColorText.

(** Whether every attribute inside a value has a key. *)
Fixpoint membersKeyed (v : Value) : bool :=
  match v with
  | GroupValue attrs =>
      forallb (fun a => negb (String.eqb (fst a) "") && membersKeyed (snd a))
              attrs
  | LogValuerValue _ v' => membersKeyed v'
  | _ => true
  end.

Definition multilineOptions : Options :=
  {| Level := LevelInfo; AddSource := false; Colorful := false;
     Multiline := true; TimeFormat := DefaultTimeFormat |}.

(** ** Removing the escape sequences

    The escape sequences [colorize] writes have the form ESC, an opening
    bracket, decimal digits, and the letter m.  [stripEscapes] reads a text
    from left to right and leaves these sequences out; an ESC that does not
    start such a sequence stays, with what follows it. *)

Definition isDigit (c : ascii) : bool :=
  (48 <=? nat_of_ascii c)%nat && (nat_of_ascii c <=? 57)%nat.

Fixpoint allDigits (s : string) : bool :=
  match s with
  | EmptyString => true
  | String c s' => isDigit c && allDigits s'
  end.

Inductive Scan :=
| Plain
| SawEsc
| InCode (digits : string).

(** What has been read of a possible escape sequence. *)
Definition pendingText (st : Scan) : string :=
  match st with
  | Plain => ""
  | SawEsc => esc
  | InCode d => esc ++ "[" ++ d
  end.

Fixpoint stripGo (st : Scan) (s : string) : string :=
  match s with
  | EmptyString => pendingText st
  | String c s' =>
      if Ascii.eqb c (ascii_of_nat 27) then pendingText st ++ stripGo SawEsc s'
      else
        match st with
        | Plain => String c (stripGo Plain s')
        | SawEsc =>
            if Ascii.eqb c (ascii_of_nat 91) then stripGo (InCode "") s'
            else esc ++ String c (stripGo Plain s')
        | InCode d =>
            if isDigit c then stripGo (InCode (d ++ String c "")) s'
            else if Ascii.eqb c (ascii_of_nat 109) then stripGo Plain s'
            else pendingText st ++ String c (stripGo Plain s')
        end
  end.

Definition stripEscapes (s : string) : string := stripGo Plain s.

(** Texts without the escape byte, through a value, an attribute, a chain
    element and a record. *)
Fixpoint cleanValue (v : Value) : bool :=
  match v with
  | StringValue s => negb (hasEscape s)
  | AnyValue x => negb (hasEscape (any_Sprint x))
  | LogValuerValue x v' =>
      negb (hasEscape (any_typ x)) && negb (hasEscape (any_Sprint x))
      && cleanValue v'
  | GroupValue attrs =>
      forallb (fun a => negb (hasEscape (fst a)) && cleanValue (snd a)) attrs
  | _ => true
  end.

Definition cleanAttr (a : Attr) : bool :=
  negb (hasEscape (Key a)) && cleanValue (Val a).

Definition cleanGoa (goa : groupOrAttrs) : bool :=
  negb (hasEscape (group goa)) && forallb cleanAttr (attrs goa).

Definition cleanRecord (r : Record_) : bool :=
  negb (hasEscape (Message r)) && forallb cleanAttr (Attrs r).

(** A library that puts no escape byte into what it formats. *)
Record cleanRuntime (rt : Runtime) : Prop := {
  clean_time_Format :
    forall layout t, hasEscape layout = false ->
                     hasEscape (time_Format rt layout t) = false;
  clean_float_String : forall f, hasEscape (float_String rt f) = false;
  clean_duration_String : forall d, hasEscape (duration_String rt d) = false;
  clean_strconv_Quote :
    forall s, hasEscape s = false -> hasEscape (strconv_Quote rt s) = false;
  clean_callerFrame :
    forall pc, hasEscape (filepath_Base rt (fst (callerFrame rt pc))) = false
}.

(** The handler with colours switched on or off. *)
Definition withColorful (b : bool) (h : SlogPretty) : SlogPretty :=
  {| opts := {| Level := Level (opts h); AddSource := AddSource (opts h);
                Colorful := b; Multiline := Multiline (opts h);
                TimeFormat := TimeFormat (opts h) |};
     goas := goas h; out := out h; mu := mu h |}.

(** Two texts that are the same once the escape sequences are removed,
    whatever follows them. *)
Definition sameText (a b : string) : Prop :=
  exists s, forall t, stripEscapes (a ++ t) = s ++ stripEscapes t
                      /\ stripEscapes (b ++ t) = s ++ stripEscapes t.

(** ** Groups as the library builds them

    The functions [slog.GroupValue] and [slog.Group], by which a program
    makes a group (the constructor [GroupValue] above is the value they
    return).  [slog.GroupValue] leaves out, as it builds the group, each
    member that is a group without members; it looks at the kind of the
    member as given, without resolving it. *)

(** [Value.isEmptyGroup]. *)
Definition isEmptyGroup (v : Value) : bool :=
  match v with
  | GroupValue attrs => (length attrs =? 0)%nat
  | _ => false
  end.

(** [countEmptyGroups]. *)
Definition countEmptyGroups (members : list Attr) : nat :=
  length (List.filter (fun a => isEmptyGroup (Val a)) members).

(** The function [slog.GroupValue(as...)]. *)
Definition slog_GroupValue (members : list Attr) : Value :=
  if (0 <? countEmptyGroups members)%nat then
    GroupValue (List.filter (fun a => negb (isEmptyGroup (Val a))) members)
  else GroupValue members.

(** The function [slog.Group(key, args...)], on attributes. *)
Definition slog_Group (key : string) (members : list Attr) : Attr :=
  (key, slog_GroupValue members).

(** A run of derivations and records from a handler bound to
    [sampleChain]: a group is bound to it, attributes are bound to the
    result, the handler in between handles a record without attributes,
    and a second handler is made. *)
Definition boundWorld : World := worldOf plainOptions sampleChain okWriter.

Definition boundWorld1 : World :=
  worldAfter boundWorld (WithGroup 0%nat "req" boundWorld).

Definition boundWorld2 : World :=
  worldAfter boundWorld1 (WithAttrs 1%nat idBob boundWorld1).

Definition boundWorld3 : World :=
  worldAfter boundWorld2 (Handle sampleRuntime 1%nat emptyRecord boundWorld2).

Definition boundWorld4 : World :=
  worldAfter boundWorld3 (New 0%nat None boundWorld3).

(** ** Properties of the rendering functions *)

Lemma fold_left_ext_In {A B} (f g : B -> A -> B) (l : list A) :
  forall b, (forall b x, In x l -> f b x = g b x) ->
            fold_left f l b = fold_left g l b.
Proof.
  induction l as [|x l IH]; intros b H; simpl.
  - reflexivity.
  - rewrite (H b x (or_introl eq_refl)).
    apply IH. intros b' y Hy. apply H. now right.
Qed.

Lemma depth_member (attrs : list Attr) (ga : Attr) :
  In ga attrs -> (depth (Val ga) < depth (GroupValue attrs))%nat.
Proof.
  intros Hin. simpl.
  assert (Hall : Forall (fun k => (k <= list_max (List.map (fun a => depth (snd a)) attrs))%nat)
                        (List.map (fun a => depth (snd a)) attrs))
    by (apply list_max_le; lia).
  rewrite List.Forall_forall in Hall.
  specialize (Hall (depth (snd ga))
                   (in_map (fun a => depth (snd a)) attrs ga Hin)).
  unfold Val. lia.
Qed.

Lemma depth_resolveLoop (orig : Value) (i : nat) :
  forall v, (depth (resolveLoop orig i v) <= depth v)%nat.
Proof.
  induction i as [|i IH]; intros v; simpl.
  - lia.
  - destruct v; simpl; try lia.
    specialize (IH v). lia.
Qed.

Lemma depth_Resolve (v : Value) : (depth (Resolve v) <= depth v)%nat.
Proof. apply depth_resolveLoop. Qed.

Section RenderingFacts.

Context (rt : Runtime).

Lemma appendAttr_body_ext self1 self2 h buf (a : Attr) multiline level :
  (forall ga attrs, Resolve (Val a) = GroupValue attrs -> In ga attrs ->
                    forall b m k, self1 b ga m k = self2 b ga m k) ->
  appendAttr_body rt self1 h buf a multiline level =
  appendAttr_body rt self2 h buf a multiline level.
Proof.
  intros H. unfold appendAttr_body, Key, Val in *. cbn [fst snd].
  destruct (Attr_Equal rt (fst a, Resolve (snd a)) zeroAttr); [reflexivity|].
  destruct (Resolve (snd a)) as [| | | | | | |l| |] eqn:E; try reflexivity.
  destruct (length l =? 0)%nat; [reflexivity|].
  destruct multiline; apply fold_left_ext_In; intros b x Hx;
    apply (H x l); auto.
Qed.

Lemma appendAttr_rec_enough (n : nat) :
  forall m h buf (a : Attr) multiline level,
    (depth (Val a) < n)%nat -> (depth (Val a) < m)%nat ->
    appendAttr_rec rt n h buf a multiline level =
    appendAttr_rec rt m h buf a multiline level.
Proof.
  induction n as [|n IH]; intros m h buf a multiline level Hn Hm; [lia|].
  destruct m as [|m]; [lia|]. simpl.
  apply appendAttr_body_ext. intros ga l E Hin b ml k.
  pose proof (depth_member l ga Hin) as Hd.
  pose proof (depth_Resolve (Val a)) as Hr. rewrite E in Hr.
  apply IH; lia.
Qed.

(** The equation of the source: [appendAttr] is its body, with itself at
    the recursive calls. *)
Lemma appendAttr_unfold h buf (a : Attr) multiline level :
  appendAttr rt h buf a multiline level =
  appendAttr_body rt (appendAttr rt h) h buf a multiline level.
Proof.
  unfold appendAttr at 1. simpl.
  apply appendAttr_body_ext. intros ga l E Hin b ml k.
  unfold appendAttr.
  pose proof (depth_member l ga Hin) as Hd.
  pose proof (depth_Resolve (Val a)) as Hr. rewrite E in Hr.
  apply appendAttr_rec_enough; lia.
Qed.

End RenderingFacts.

Lemma resolveLoop_kind (orig : Value) (i : nat) :
  forall v, Value_Kind (resolveLoop orig i v) <> KindLogValuer.
Proof.
  induction i as [|i IH]; intros v; simpl.
  - discriminate.
  - destruct v; simpl; try discriminate. apply IH.
Qed.

Lemma Resolve_resolved (v : Value) :
  Value_Kind v <> KindLogValuer -> Resolve v = v.
Proof.
  intros H. unfold Resolve, maxLogValues.
  destruct v; simpl; try reflexivity. now elim H.
Qed.

(** Resolving twice is resolving once. *)
Lemma Resolve_idempotent (v : Value) : Resolve (Resolve v) = Resolve v.
Proof. apply Resolve_resolved, resolveLoop_kind. Qed.

Section Formatter.

Context (rt : Runtime).

(** C5, as amended.  A String attribute is written by [appendAttr] with its
    value quoted ([%q]) in inline mode, and with its value as it is, without
    quotes, in multiline mode. *)
Theorem C5_string_quoted_inline_only h buf key s level :
  let keyColor := if negb (Colorful (opts h)) then 0 else lightMagenta in
  let valColor := if negb (Colorful (opts h)) then 0 else lightBlue in
  appendAttr rt h buf (key, StringValue s) false level =
    buf ++ " " ++ colorize keyColor key ++ "="
        ++ colorize valColor (strconv_Quote rt s)
  /\ appendAttr rt h buf (key, StringValue s) true level =
       buf ++ Repeat " " (2 * level) ++ colorize keyColor key ++ ": "
           ++ colorize valColor s ++ nl.
Proof.
  intros keyColor valColor.
  split; rewrite appendAttr_unfold; unfold appendAttr_body, Attr_Equal;
    cbn [Key Val fst snd zeroAttr Value_Equal];
    rewrite Resolve_resolved by discriminate;
    cbn [Value_Equal]; rewrite andb_false_r; reflexivity.
Qed.

(** C7, as amended.  A Group attribute without members adds nothing to the
    buffer, in inline and in multiline mode and at every indentation level;
    in a sequence of attributes (the members of a group at any depth, a
    bound batch, the attributes of a record) it can be left out without
    changing the output.  A group whose members are all groups without
    members is, as [slog.Group] builds it, a group without members itself,
    and is written as nothing: so is the group "details" with the one
    member "metrics", an empty group.  The label alone is what is written
    for a group whose one member turns into an empty group only when it is
    resolved. *)
Theorem C7_empty_groups_write_nothing h buf key (x : any) multiline level :
  let keyColor := if negb (Colorful (opts h)) then 0 else lightMagenta in
  appendAttr rt h buf (key, GroupValue []) multiline level = buf
  /\ (forall before after : list Attr,
        fold_left (fun b ga => appendAttr rt h b ga multiline level)
                  (before ++ (key, GroupValue []) :: after) buf =
        fold_left (fun b ga => appendAttr rt h b ga multiline level)
                  (before ++ after) buf)
  /\ (forall members : list Attr,
        forallb (fun a => isEmptyGroup (Val a)) members = true ->
        appendAttr rt h buf (slog_Group key members) multiline level = buf)
  /\ appendAttr rt h buf (slog_Group "details" [slog_Group "metrics" []])
                multiline level = buf
  /\ appendAttr rt h buf
       (slog_Group "details" [("metrics", LogValuerValue x (GroupValue []))])
       true level =
       buf ++ Repeat " " (2 * level) ++ colorize keyColor "details" ++ ":" ++ nl
  /\ appendAttr rt h buf
       (slog_Group "details" [("metrics", LogValuerValue x (GroupValue []))])
       false level =
       buf ++ " " ++ colorize keyColor "details" ++ ":".
Proof.
  intros keyColor.
  assert (Hempty : forall b k ml lv,
             appendAttr rt h b (k, GroupValue []) ml lv = b).
  { intros b k ml lv. rewrite appendAttr_unfold.
    unfold appendAttr_body, Attr_Equal.
    cbn [Key Val fst snd zeroAttr].
    rewrite Resolve_resolved by discriminate.
    cbn [Value_Equal]. rewrite andb_false_r. reflexivity. }
  assert (Hlazy : forall b k ml lv,
             appendAttr rt h b (k, LogValuerValue x (GroupValue [])) ml lv = b).
  { intros b k ml lv. rewrite appendAttr_unfold.
    unfold appendAttr_body, Attr_Equal.
    cbn [Key Val fst snd zeroAttr].
    change (Resolve (LogValuerValue x (GroupValue []))) with (GroupValue []).
    cbn [Value_Equal]. rewrite andb_false_r. reflexivity. }
  assert (Hbuilt : forall members : list Attr,
             forallb (fun a => isEmptyGroup (Val a)) members = true ->
             slog_GroupValue members = GroupValue []).
  { intros members Hall. unfold slog_GroupValue, countEmptyGroups.
    assert (Hnone : List.filter (fun a => negb (isEmptyGroup (Val a))) members
                    = []).
    { induction members as [|m members IH]; [reflexivity|].
      cbn [forallb] in Hall. apply andb_prop in Hall.
      destruct Hall as [Hm Hall]. cbn [List.filter]. rewrite Hm.
      cbn [negb]. now apply IH. }
    rewrite Hnone.
    destruct members as [|m members]; [reflexivity|].
    cbn [forallb] in Hall. apply andb_prop in Hall. destruct Hall as [Hm _].
    cbn [List.filter]. rewrite Hm. reflexivity. }
  split; [apply Hempty|]. split.
  { intros before after. rewrite !fold_left_app. simpl. now rewrite Hempty. }
  split.
  { intros members Hall. unfold slog_Group. rewrite (Hbuilt members Hall).
    apply Hempty. }
  split; [apply Hempty|].
  split; rewrite appendAttr_unfold; unfold appendAttr_body, Attr_Equal;
    cbn [slog_Group Key Val fst snd zeroAttr];
    change (slog_GroupValue [("metrics", LogValuerValue x (GroupValue []))])
      with (GroupValue [("metrics", LogValuerValue x (GroupValue []))]);
    rewrite Resolve_resolved by discriminate;
    cbn [Value_Equal]; rewrite andb_false_r; simpl;
    rewrite Hlazy; reflexivity.
Qed.

(** C8.  [appendAttr] resolves the value before anything else: it writes for
    an attribute what it writes for the attribute with its value resolved;
    and when the resolved attribute equals the zero attribute, it returns
    the buffer as it received it. *)
Theorem C8_zero_attr_elided h buf (a : Attr) multiline level :
  appendAttr rt h buf a multiline level =
    appendAttr rt h buf (Key a, Resolve (Val a)) multiline level
  /\ (Attr_Equal rt (Key a, Resolve (Val a)) zeroAttr = true ->
      appendAttr rt h buf a multiline level = buf).
Proof.
  split.
  - rewrite !appendAttr_unfold. unfold appendAttr_body.
    cbn [Key Val fst snd]. rewrite Resolve_idempotent. reflexivity.
  - intros Hzero. rewrite appendAttr_unfold. unfold appendAttr_body.
    now rewrite Hzero.
Qed.

End Formatter.

(** C5, as the specification has it, fails: in multiline mode the value of
    a String attribute is written without quotes. *)
Lemma C5_counterexample :
  appendAttr sampleRuntime (sampleHandler plainOptions) ""
             ("k", StringValue "v") true 1
  = "  " ++ colorize 0 "k" ++ ": " ++ colorize 0 "v" ++ nl
  /\ appendAttr sampleRuntime (sampleHandler plainOptions) ""
                ("k", StringValue "v") true 1
     <> "  " ++ colorize 0 "k" ++ ": "
             ++ colorize 0 (strconv_Quote sampleRuntime "v") ++ nl.
Proof. split; [reflexivity | vm_compute; discriminate]. Qed.

(** C7, as the specification has it, fails in its scenario: the group
    "details" that [slog.Group] builds from the one member "metrics", an
    empty group, has no member left, and nothing is written for it, in
    either mode; the label would be the text on the right. *)
Lemma C7_counterexample :
  slog_Group "details" [slog_Group "metrics" []] = ("details", GroupValue [])
  /\ appendAttr sampleRuntime (sampleHandler plainOptions) ""
       (slog_Group "details" [slog_Group "metrics" []]) true 1 = ""
  /\ appendAttr sampleRuntime (sampleHandler plainOptions) ""
       (slog_Group "details" [slog_Group "metrics" []]) true 1
     <> "  " ++ colorize 0 "details" ++ ":" ++ nl
  /\ appendAttr sampleRuntime (sampleHandler plainOptions) ""
       (slog_Group "details" [slog_Group "metrics" []]) false 0
     <> " " ++ colorize 0 "details" ++ ":".
Proof.
  split; [reflexivity|]. split; [reflexivity|].
  split; vm_compute; discriminate.
Qed.

(** A group whose members are empty groups, as the library builds it. *)
Lemma C7_witness :
  forallb (fun a => isEmptyGroup (Val a))
          [slog_Group "metrics" []; slog_Group "limits" []] = true
  /\ appendAttr sampleRuntime (sampleHandler plainOptions) "header"
       (slog_Group "details" [slog_Group "metrics" []; slog_Group "limits" []])
       true 1
     = "header".
Proof.
  split; [reflexivity|].
  apply (proj1 (proj2 (proj2
           (C7_empty_groups_write_nothing sampleRuntime
              (sampleHandler plainOptions) "header" "details" nil true 1%nat)))).
  reflexivity.
Defined.

(** A deferred value that resolves to the zero value, under an empty key,
    leaves no trace. *)
Lemma C8_witness :
  Attr_Equal sampleRuntime
    (Key ("", LogValuerValue (boxed "main.lazy" "{}") (AnyValue nil)),
     Resolve (Val ("", LogValuerValue (boxed "main.lazy" "{}") (AnyValue nil))))
    zeroAttr = true
  /\ appendAttr sampleRuntime (sampleHandler plainOptions) "header"
       ("", LogValuerValue (boxed "main.lazy" "{}") (AnyValue nil)) false 0
     = "header".
Proof.
  split; [reflexivity|].
  apply (C8_zero_attr_elided sampleRuntime (sampleHandler plainOptions) "header"
           ("", LogValuerValue (boxed "main.lazy" "{}") (AnyValue nil)) false 0).
  reflexivity.
Defined.

(** ** The chain and its trimming *)

Lemma trimLoop_snoc (n : nat) (g : list groupOrAttrs) (x : groupOrAttrs) :
  trimLoop (S n) (g ++ [x])%list =
  if negb (String.eqb (group x) "") then trimLoop n g else (g ++ [x])%list.
Proof.
  simpl. rewrite length_app. simpl.
  replace (length g + 1 - 1)%nat with (length g) by lia.
  rewrite lookup_app_r by lia. rewrite Nat.sub_diag. simpl.
  replace (0 <? length g + 1)%nat with true
    by (symmetry; apply Nat.ltb_lt; lia).
  rewrite take_app_length. reflexivity.
Qed.

(** The loop has stopped after [length g] turns: further turns change
    nothing. *)
Lemma trimLoop_done (n : nat) :
  forall m (g : list groupOrAttrs),
    (length g <= n)%nat -> (length g <= m)%nat -> trimLoop n g = trimLoop m g.
Proof.
  induction n as [|n IH]; intros m g Hn Hm.
  - destruct g; [|simpl in Hn; lia]. destruct m; reflexivity.
  - induction g as [|x g' _] using rev_ind.
    + destruct m; reflexivity.
    + rewrite length_app in Hn, Hm. simpl in Hn, Hm.
      destruct m as [|m]; [lia|]. rewrite !trimLoop_snoc.
      destruct (negb (String.eqb (group x) "")); [|reflexivity].
      apply IH; lia.
Qed.

Lemma trimLoop_spec (n : nat) :
  forall g : list groupOrAttrs,
    (length g <= n)%nat ->
    List.map elemOf (trimLoop n g) = spec_effectiveChain (List.map elemOf g)
    /\ exists k, trimLoop n g = take k g.
Proof.
  induction n as [|n IH]; intros g Hn.
  - destruct g; [|simpl in Hn; lia]. split; [reflexivity|]. now exists 0%nat.
  - induction g as [|x g' _] using rev_ind.
    + split; [reflexivity|]. now exists 0%nat.
    + rewrite length_app in Hn. simpl in Hn. rewrite trimLoop_snoc.
      unfold spec_effectiveChain. rewrite List.map_app. simpl.
      rewrite rev_app_distr. simpl.
      assert (Hm : isMarker (elemOf x) = negb (String.eqb (group x) ""))
        by (unfold elemOf; destruct (String.eqb (group x) ""); reflexivity).
      rewrite Hm. destruct (String.eqb (group x) ""); simpl.
      * split.
        -- rewrite List.map_app, rev_involutive. reflexivity.
        -- exists (length (g' ++ [x])%list). now rewrite firstn_all.
      * destruct (IH g') as [Hs [k Hk]]; [lia|]. split; [exact Hs|].
        exists (Nat.min k (length g')).
        rewrite Hk, take_app_le by lia.
        destruct (le_lt_dec k (length g')) as [Hk'|Hk'].
        -- now rewrite Nat.min_l by lia.
        -- rewrite Nat.min_r by lia. now rewrite !take_ge by lia.
Qed.

(** ** Runs of the effectful methods *)

Lemma set_goas_same (h : SlogPretty) : set_goas h (goas h) = h.
Proof. now destruct h. Qed.

Lemma removeEmptyGroup_run (w : World) (hp : ptr) (h : SlogPretty) (r : Record_) :
  handlers w !! hp = Some h ->
  removeEmptyGroup hp r w =
  Some (tt, {| handlers := <[hp := set_goas h (effectiveChain h r)]> (handlers w);
               options := options w; mutexes := mutexes w;
               writers := writers w; events := events w |}).
Proof.
  intros Hh. unfold removeEmptyGroup, effectiveChain.
  destruct (NumAttrs r =? 0)%nat.
  - unfold bind, loadHandler, storeHandler. now rewrite Hh, Hh.
  - rewrite set_goas_same, list_insert_id by exact Hh. now destruct w.
Qed.

Lemma Handle_run (rt : Runtime) (w : World) (hp : ptr) (h : SlogPretty)
    (r : Record_) (wr : Writer) :
  handlers w !! hp = Some h ->
  mutexes w !! mu h = Some false ->
  writers w !! out h = Some wr ->
  let h' := set_goas h (effectiveChain h r) in
  let buf := renderLine rt h h' r in
  let res := accept wr (stream wr) buf in
  Handle rt hp r w =
  Some (snd res,
        {| handlers := <[hp := h']> (handlers w);
           options := options w;
           mutexes := mutexes w;
           writers := <[out h := {| accept := accept wr;
                                    stream := stream wr ++ prefix (fst res) buf |}]>
                        (writers w);
           events := (events w ++ [EvLock (mu h); EvWrite (out h) buf;
                                   EvUnlock (mu h)])%list |}).
Proof.
  intros Hh Hm Hw h' buf res.
  pose proof (lookup_lt_Some _ _ _ Hh) as Hlt.
  pose proof (lookup_lt_Some _ _ _ Hm) as Hlm.
  unfold Handle. unfold bind at 1. unfold loadHandler at 1. rewrite Hh.
  unfold bind at 1. rewrite (removeEmptyGroup_run w hp h r Hh).
  unfold bind at 1. unfold loadHandler. cbn [handlers].
  rewrite list_lookup_insert_eq by exact Hlt. fold h'.
  unfold bind, Lock, Write, Unlock, ret. cbn [mutexes writers events mu out h' set_goas].
  rewrite Hm. cbn [mutexes writers events]. rewrite Hw.
  cbn [mutexes writers events].
  rewrite list_lookup_insert_eq by exact Hlm.
  rewrite list_insert_insert_eq, (list_insert_id _ _ _ Hm).
  rewrite <- !app_assoc. reflexivity.
Qed.

Lemma make_copy_set {A} (zero x : A) (g : list A) :
  <[(length (copy (replicate (length g + 1) zero) g) - 1)%nat := x]>
    (copy (replicate (length g + 1) zero) g) = (g ++ [x])%list.
Proof.
  unfold copy. rewrite length_replicate, take_ge by lia.
  rewrite drop_replicate.
  replace (length g + 1 - length g)%nat with 1%nat by lia. simpl.
  rewrite length_app. simpl.
  replace (length g + 1 - 1)%nat with (length g + 0)%nat by lia.
  now rewrite insert_app_r.
Qed.

Lemma withGroupOrAttrs_run (w : World) (hp : ptr) (h : SlogPretty)
    (goa : groupOrAttrs) :
  handlers w !! hp = Some h ->
  withGroupOrAttrs hp goa w =
  Some (length (handlers w),
        {| handlers := (handlers w ++ [set_goas h (goas h ++ [goa])%list])%list;
           options := options w; mutexes := mutexes w;
           writers := writers w; events := events w |}).
Proof.
  intros Hh. unfold withGroupOrAttrs, bind, loadHandler, newHandler.
  rewrite Hh. now rewrite make_copy_set.
Qed.

(** C3.  [WithAttrs] with an empty batch and [WithGroup] with an empty name
    return the receiver itself and leave the store as it is.  With a
    non-empty batch or name they return a new handler whose chain is the
    receiver's chain with one element appended, at an address different
    from the receiver's.  In every case each handler already in the store,
    the receiver among them, is as it was. *)
Theorem C3_derivation_appends_one (w : World) (hp : ptr) (h : SlogPretty)
    (batch : list Attr) (name : string) :
  handlers w !! hp = Some h ->
  (exists p' w',
      WithAttrs hp batch w = Some (p', w')
      /\ handlers w' !! hp = Some h
      /\ (forall q x, handlers w !! q = Some x -> handlers w' !! q = Some x)
      /\ (batch = [] -> p' = hp /\ w' = w)
      /\ (batch <> [] ->
          p' <> hp
          /\ handlers w' !! p' =
             Some (set_goas h (goas h ++ [{| group := ""; attrs := batch |}])%list)
          /\ chainOf w' p' =
             Some (goas h ++ [{| group := ""; attrs := batch |}])%list))
  /\ (exists p' w',
      WithGroup hp name w = Some (p', w')
      /\ handlers w' !! hp = Some h
      /\ (forall q x, handlers w !! q = Some x -> handlers w' !! q = Some x)
      /\ (name = "" -> p' = hp /\ w' = w)
      /\ (name <> "" ->
          p' <> hp
          /\ handlers w' !! p' =
             Some (set_goas h (goas h ++ [{| group := name; attrs := [] |}])%list)
          /\ chainOf w' p' =
             Some (goas h ++ [{| group := name; attrs := [] |}])%list)).
Proof.
  intros Hh. pose proof (lookup_lt_Some _ _ _ Hh) as Hlt.
  assert (Hfresh : forall goa,
    exists p' w',
      withGroupOrAttrs hp goa w = Some (p', w')
      /\ handlers w' !! hp = Some h
      /\ (forall q x, handlers w !! q = Some x -> handlers w' !! q = Some x)
      /\ p' <> hp
      /\ handlers w' !! p' = Some (set_goas h (goas h ++ [goa])%list)
      /\ chainOf w' p' = Some (goas h ++ [goa])%list).
  { intros goa. rewrite (withGroupOrAttrs_run w hp h goa Hh).
    eexists _, _. split; [reflexivity|].
    unfold chainOf. cbn [handlers].
    assert (Hnew : (handlers w ++ [set_goas h (goas h ++ [goa])%list])%list
                     !! length (handlers w)
                   = Some (set_goas h (goas h ++ [goa])%list)).
    { rewrite lookup_app_r by lia. now rewrite Nat.sub_diag. }
    unfold ptr in *. rewrite Hnew. repeat split.
    - now rewrite lookup_app_l by lia.
    - intros q x Hq. pose proof (lookup_lt_Some _ _ _ Hq).
      now rewrite lookup_app_l by lia.
    - lia. }
  split.
  - unfold WithAttrs. destruct batch as [|a batch]; simpl.
    + exists hp, w. split; [reflexivity|]. split; [exact Hh|].
      split; [auto|]. split; [auto|]. intros Hne. now elim Hne.
    + destruct (Hfresh {| group := ""; attrs := a :: batch |})
        as (p' & w' & Hrun & Hsame & Hold & Hne & Hnew & Hchain).
      exists p', w'. split; [exact Hrun|]. split; [exact Hsame|].
      split; [exact Hold|]. split; [discriminate|]. auto.
  - unfold WithGroup. destruct (String.eqb_spec name "") as [->|Hname].
    + exists hp, w. split; [reflexivity|]. split; [exact Hh|].
      split; [auto|]. split; [auto|]. intros Hne. now elim Hne.
    + destruct (Hfresh {| group := name; attrs := [] |})
        as (p' & w' & Hrun & Hsame & Hold & Hne & Hnew & Hchain).
      exists p', w'. split; [exact Hrun|]. split; [exact Hsame|].
      split; [exact Hold|]. split; [intros ->; now elim Hname|]. auto.
Qed.

(** Deriving from the one handler of a sample store. *)
Lemma C3_witness :
  handlers (worldOf plainOptions [userGroup] okWriter) !! 0%nat
    = Some {| opts := plainOptions; goas := [userGroup];
              out := 0%nat; mu := 0%nat |}
  /\ derivedChain (WithAttrs 0%nat idBob (worldOf plainOptions [userGroup] okWriter))
     = Some [userGroup; {| group := ""; attrs := idBob |}]
  /\ chainOf (worldAfter (worldOf plainOptions [userGroup] okWriter)
                (WithAttrs 0%nat idBob (worldOf plainOptions [userGroup] okWriter)))
             0%nat
     = Some [userGroup].
Proof.
  destruct (C3_derivation_appends_one
              (worldOf plainOptions [userGroup] okWriter) 0%nat
              {| opts := plainOptions; goas := [userGroup];
                 out := 0%nat; mu := 0%nat |}
              idBob "" eq_refl)
    as [(p' & w' & Hrun & Hsame & _ & _ & Hne) _].
  split; [reflexivity|].
  destruct (Hne ltac:(discriminate)) as (_ & _ & Hchain).
  rewrite Hrun. simpl. split; [exact Hchain|].
  unfold chainOf. now rewrite Hsame.
Defined.

Section Emit.

Context (rt : Runtime).

(** C6.  [Handle] renders the line from the handler as [removeEmptyGroup]
    leaves it.  For a record without attributes of its own, the chain of
    that handler is the stored chain with the group markers popped from its
    tail, down to the last batch of attributes or to the start of the
    chain; for a record with attributes it is the stored chain. *)
Theorem C6_effective_chain (w : World) (hp : ptr) (h : SlogPretty)
    (r : Record_) (wr : Writer) :
  handlers w !! hp = Some h ->
  mutexes w !! mu h = Some false ->
  writers w !! out h = Some wr ->
  exists h' err w',
    Handle rt hp r w = Some (err, w')
    /\ handlers w' !! hp = Some h'
    /\ events w' = (events w ++ [EvLock (mu h);
                                 EvWrite (out h) (renderLine rt h h' r);
                                 EvUnlock (mu h)])%list
    /\ opts h' = opts h
    /\ (NumAttrs r = 0%nat ->
        List.map elemOf (goas h') = spec_effectiveChain (List.map elemOf (goas h))
        /\ exists k, goas h' = take k (goas h))
    /\ (NumAttrs r <> 0%nat -> goas h' = goas h).
Proof.
  intros Hh Hm Hw.
  pose proof (lookup_lt_Some _ _ _ Hh) as Hlt.
  eexists _, _, _. split; [apply (Handle_run rt w hp h r wr Hh Hm Hw)|].
  cbn [handlers events]. split; [now apply list_lookup_insert_eq|].
  split; [reflexivity|]. split; [reflexivity|].
  unfold effectiveChain. cbn [goas set_goas]. split.
  - intros ->. simpl. now apply trimLoop_spec.
  - intros Hn. apply Nat.eqb_neq in Hn. now rewrite Hn.
Qed.

(** C9, as amended.  [Handle] builds the whole line, ending in a newline,
    before it touches the sink; it then locks the mutex, calls [Write] once,
    with that line, and unlocks the mutex, whatever [Write] returned; its
    result is the error of that [Write].  The sink holds afterwards what it
    held before, followed by as many bytes of the line as it took. *)
Theorem C9_one_write_under_lock (w : World) (hp : ptr) (h : SlogPretty)
    (r : Record_) (wr : Writer) :
  handlers w !! hp = Some h ->
  mutexes w !! mu h = Some false ->
  writers w !! out h = Some wr ->
  exists body w',
    let buf := body ++ nl in
    let res := accept wr (stream wr) buf in
    buf = renderLine rt h (set_goas h (effectiveChain h r)) r
    /\ Handle rt hp r w = Some (snd res, w')
    /\ events w' = (events w ++ [EvLock (mu h); EvWrite (out h) buf;
                                 EvUnlock (mu h)])%list
    /\ mutexes w' = mutexes w
    /\ writers w' !! out h =
       Some {| accept := accept wr;
               stream := stream wr ++ prefix (fst res) buf |}
    /\ (forall o, o <> out h -> writers w' !! o = writers w !! o).
Proof.
  intros Hh Hm Hw.
  pose proof (lookup_lt_Some _ _ _ Hw) as Hlt.
  eexists _, _. cbv zeta. split; [reflexivity|].
  split; [apply (Handle_run rt w hp h r wr Hh Hm Hw)|].
  cbn [events mutexes writers]. split; [reflexivity|]. split; [reflexivity|].
  split; [now apply list_lookup_insert_eq|].
  intros o Ho. now apply list_lookup_insert_ne.
Qed.

(** C4, as amended.  For a level below the threshold [Enabled] is false,
    and the logger, which calls [Handle] only for a level [Enabled] admits,
    leaves the store as it is: no event, no byte on any sink.  [Handle]
    itself does not look at the level. *)
Theorem C4_below_threshold_filtered (w : World) (hp : ptr) (h : SlogPretty)
    (r : Record_) :
  handlers w !! hp = Some h ->
  Level_ r < Level (opts h) ->
  Enabled h (Level_ r) = false
  /\ Logger_log rt hp r w = Some (tt, w).
Proof.
  intros Hh Hlt.
  assert (He : Enabled h (Level_ r) = false).
  { unfold Enabled. rewrite Z.geb_leb. apply Z.leb_gt. exact Hlt. }
  split; [exact He|].
  unfold Logger_log, bind, loadHandler. rewrite Hh, He. reflexivity.
Qed.

End Emit.

(** A record without attributes, on a chain that ends in two markers: the
    line is rendered from the chain cut back to its batch. *)
Lemma C6_witness :
  handlers (worldOf plainOptions sampleChain okWriter) !! 0%nat
    = Some {| opts := plainOptions; goas := sampleChain;
              out := 0%nat; mu := 0%nat |}
  /\ mutexes (worldOf plainOptions sampleChain okWriter) !! 0%nat = Some false
  /\ writers (worldOf plainOptions sampleChain okWriter) !! 0%nat = Some okWriter
  /\ exists h' err w',
       Handle sampleRuntime 0%nat emptyRecord
              (worldOf plainOptions sampleChain okWriter) = Some (err, w')
       /\ handlers w' !! 0%nat = Some h'
       /\ List.map elemOf (goas h') = [AttrsBatch idBob].
Proof.
  split; [reflexivity|]. split; [reflexivity|]. split; [reflexivity|].
  destruct (C6_effective_chain sampleRuntime
              (worldOf plainOptions sampleChain okWriter) 0%nat
              {| opts := plainOptions; goas := sampleChain;
                 out := 0%nat; mu := 0%nat |}
              emptyRecord okWriter eq_refl eq_refl eq_refl)
    as (h' & err & w' & Hrun & Hh' & _ & _ & Hzero & _).
  exists h', err, w'. split; [exact Hrun|]. split; [exact Hh'|].
  destruct (Hzero eq_refl) as [Hspec _]. rewrite Hspec. reflexivity.
Defined.

(** C9, as the specification has it, fails: a sink that takes three bytes
    and then fails is left with the first three bytes of the line, and
    [Handle] returns its error. *)
Lemma C9_counterexample :
  match Handle sampleRuntime 0%nat serverStarted
               (worldOf plainOptions [] shortWriter) with
  | Some (err, w') =>
      err = Some "short write"
      /\ List.map stream (writers w') = ["200"]
      /\ events w' =
         [EvLock 0%nat;
          EvWrite 0%nat
            ("2006-01-02 15:04:05.000 " ++ colorize lightCyan "INFO" ++ " "
               ++ colorize white "Server started" ++ " " ++ colorize 0 "port"
               ++ "=" ++ colorize 0 "8080" ++ nl);
          EvUnlock 0%nat]
  | None => False
  end.
Proof. vm_compute. repeat split. Qed.

(** With a sink that takes every byte the whole line is on the stream. *)
Lemma C9_witness :
  handlers (worldOf plainOptions [] okWriter) !! 0%nat
    = Some (sampleHandler plainOptions)
  /\ mutexes (worldOf plainOptions [] okWriter) !! 0%nat = Some false
  /\ writers (worldOf plainOptions [] okWriter) !! 0%nat = Some okWriter
  /\ exists w',
       Handle sampleRuntime 0%nat serverStarted
              (worldOf plainOptions [] okWriter) = Some (None, w')
       /\ events w' =
          [EvLock 0%nat;
           EvWrite 0%nat
             (renderLine sampleRuntime (sampleHandler plainOptions)
                         (sampleHandler plainOptions) serverStarted);
           EvUnlock 0%nat]
       /\ mutexes w' = [false].
Proof.
  split; [reflexivity|]. split; [reflexivity|]. split; [reflexivity|].
  destruct (C9_one_write_under_lock sampleRuntime
              (worldOf plainOptions [] okWriter) 0%nat
              (sampleHandler plainOptions) serverStarted okWriter
              eq_refl eq_refl eq_refl)
    as (body & w' & Hbuf & Hrun & Hev & Hmu & _).
  cbv zeta in Hbuf, Hrun, Hev. rewrite Hbuf in Hrun, Hev.
  exists w'. split; [exact Hrun|]. split; [exact Hev|]. exact Hmu.
Defined.

(** C4, as the specification has it, fails: [Handle], called with a Debug
    record on a handler whose threshold is Info, writes the line. *)
Lemma C4_counterexample :
  Enabled (sampleHandler plainOptions) (Level_ debugRecord) = false
  /\ written (Handle sampleRuntime 0%nat debugRecord
                     (worldOf plainOptions [] okWriter))
     = ["2006-01-02 15:04:05.000 " ++ colorize lightMagenta "DEBUG" ++ " "
          ++ colorize white "probe" ++ nl].
Proof. split; reflexivity. Qed.

(** The same record through the logger reaches no sink. *)
Lemma C4_witness :
  handlers (worldOf plainOptions [] okWriter) !! 0%nat
    = Some (sampleHandler plainOptions)
  /\ Level_ debugRecord < Level (opts (sampleHandler plainOptions))
  /\ Logger_log sampleRuntime 0%nat debugRecord (worldOf plainOptions [] okWriter)
     = Some (tt, worldOf plainOptions [] okWriter).
Proof.
  split; [reflexivity|]. split; [reflexivity|].
  apply (C4_below_threshold_filtered sampleRuntime
           (worldOf plainOptions [] okWriter) 0%nat
           (sampleHandler plainOptions) debugRecord eq_refl eq_refl).
Defined.

(** ** Construction *)

(** C10.  [New], given options whose [TimeFormat] is empty, stores
    [DefaultTimeFormat] in the caller's own [Options]; the other fields of
    that object and every other [Options] object are as they were.  The
    handler holds the options by value: whatever the caller stores in the
    object afterwards, the handler is the same. *)
Theorem C10_New_fills_caller_options (w : World) (sink : ptr) (p : ptr)
    (o : Options) :
  options w !! p = Some o ->
  TimeFormat o = "" ->
  exists hp w' o' h,
    New sink (Some p) w = Some (hp, w')
    /\ options w' !! p = Some o'
    /\ TimeFormat o' = DefaultTimeFormat
    /\ Level o' = Level o /\ AddSource o' = AddSource o
    /\ Colorful o' = Colorful o /\ Multiline o' = Multiline o
    /\ (forall q, q <> p -> options w' !! q = options w !! q)
    /\ handlers w' !! hp = Some h
    /\ opts h = o' /\ goas h = [] /\ out h = sink
    /\ (forall o2 w2, storeOptions p o2 w' = Some (tt, w2) ->
                      options w2 !! p = Some o2
                      /\ handlers w2 !! hp = Some h).
Proof.
  intros Ho Hfmt. pose proof (lookup_lt_Some _ _ _ Ho) as Hlt.
  unfold New, bind, ret, loadOptions, storeOptions, newMutex, newHandler.
  rewrite Ho, Hfmt. simpl. rewrite Ho. cbn [options].
  rewrite list_lookup_insert_eq by exact Hlt.
  eexists _, _, _, _. split; [reflexivity|]. cbn [options handlers].
  split; [now apply list_lookup_insert_eq|].
  do 5 (split; [reflexivity|]).
  split; [intros q Hq; now apply list_lookup_insert_ne|].
  split; [rewrite lookup_app_r by lia; now rewrite Nat.sub_diag|].
  do 3 (split; [reflexivity|]).
  intros o2 w2. rewrite list_lookup_insert_eq by exact Hlt.
  intros [= <-]. cbn [options handlers]. split.
  - apply list_lookup_insert_eq. now rewrite length_insert.
  - rewrite lookup_app_r by lia. now rewrite Nat.sub_diag.
Qed.

(** The caller's options after [New]: the time format is filled in. *)
Lemma C10_witness :
  options callerWorld !! 0%nat = Some callerOptions
  /\ TimeFormat callerOptions = ""
  /\ exists hp w',
       New 0%nat (Some 0%nat) callerWorld = Some (hp, w')
       /\ options w' = [set_TimeFormat callerOptions DefaultTimeFormat].
Proof.
  split; [reflexivity|]. split; [reflexivity|].
  destruct (C10_New_fills_caller_options callerWorld 0%nat 0%nat callerOptions
              eq_refl eq_refl)
    as (hp & w' & o' & h & Hrun & _).
  exists hp, w'. split; [exact Hrun|].
  vm_compute in Hrun. now injection Hrun as <- <-.
Defined.

(** ** Where the code departs from the claims *)

(** C1: what the code does.  One [Handle] of a record without attributes
    cuts the stored chain of the handler.  A handler derived afterwards has
    lost the group the receiver was bound to, and a later record with
    attributes is written without it. *)
Theorem C1_render_trims_stored_chain :
  let w0 := worldOf plainOptions [userGroup] okWriter in
  let w1 := worldAfter w0 (Handle sampleRuntime 0%nat emptyRecord w0) in
  chainOf w0 0%nat = Some [userGroup]
  /\ chainOf w1 0%nat = Some []
  /\ derivedChain (WithAttrs 0%nat idBob w0)
     = Some [userGroup; {| group := ""; attrs := idBob |}]
  /\ derivedChain (WithAttrs 0%nat idBob w1)
     = Some [{| group := ""; attrs := idBob |}]
  /\ renderLine sampleRuntime
       {| opts := plainOptions; goas := [userGroup]; out := 0%nat; mu := 0%nat |}
       {| opts := plainOptions; goas := [userGroup]; out := 0%nat; mu := 0%nat |}
       serverStarted
     = "2006-01-02 15:04:05.000 " ++ colorize lightCyan "INFO" ++ " "
         ++ colorize white "Server started" ++ " user:" ++ " "
         ++ colorize 0 "port" ++ "=" ++ colorize 0 "8080" ++ nl
  /\ events (worldAfter w1 (Handle sampleRuntime 0%nat serverStarted w1))
     = [EvLock 0%nat;
        EvWrite 0%nat
          ("2006-01-02 15:04:05.000 " ++ colorize lightCyan "INFO" ++ " "
             ++ colorize white "ping" ++ nl);
        EvUnlock 0%nat;
        EvLock 0%nat;
        EvWrite 0%nat
          ("2006-01-02 15:04:05.000 " ++ colorize lightCyan "INFO" ++ " "
             ++ colorize white "Server started" ++ " "
             ++ colorize 0 "port" ++ "=" ++ colorize 0 "8080" ++ nl);
        EvUnlock 0%nat].
Proof. cbv zeta. repeat split; vm_compute; reflexivity. Qed.

(** C2: what the code does.  With [Colorful] off the sample record is
    written with escape sequences around the level, the message, the key
    and the value, and the level is not padded. *)
Theorem C2_plain_output_has_escapes :
  written (Handle sampleRuntime 0%nat serverStarted
                  (worldOf plainOptions [] okWriter))
  = ["2006-01-02 15:04:05.000 " ++ colorize lightCyan "INFO" ++ " "
       ++ colorize white "Server started" ++ " " ++ colorize 0 "port"
       ++ "=" ++ colorize 0 "8080" ++ nl]
  /\ List.map hasEscape
       (written (Handle sampleRuntime 0%nat serverStarted
                        (worldOf plainOptions [] okWriter)))
     = [true]
  /\ written (Handle sampleRuntime 0%nat serverStarted
                     (worldOf plainOptions [] okWriter))
     <> ["2006-01-02 15:04:05.000 INFO    Server started port=8080" ++ nl].
Proof.
  split; [reflexivity|]. split; [reflexivity|]. vm_compute. discriminate.
Qed.

(** ** Further properties: the formatter only appends *)

Lemma append_assoc (a b c : string) : (a ++ b) ++ c = a ++ b ++ c.
Proof. induction a as [|x a IH]; simpl; [reflexivity | now rewrite IH]. Qed.

Lemma append_nil_r (a : string) : a ++ "" = a.
Proof. induction a as [|x a IH]; simpl; [reflexivity | now rewrite IH]. Qed.

Lemma fold_left_appends {A} (f : string -> A -> string) (l : list A) :
  (forall x, In x l -> forall b, f b x = b ++ f "" x) ->
  forall b, fold_left f l b = b ++ fold_left f l "".
Proof.
  induction l as [|x l IH]; intros H b; simpl.
  - now rewrite append_nil_r.
  - assert (Hl : forall y, In y l -> forall b, f b y = b ++ f "" y)
      by (intros y Hy; apply H; now right).
    rewrite (IH Hl (f b x)), (IH Hl (f "" x)).
    rewrite (H x (or_introl eq_refl) b). apply append_assoc.
Qed.

Ltac by_assoc :=
  rewrite ?append_assoc; simpl; rewrite ?append_assoc; reflexivity.

Section AppendOnly.

Context (rt : Runtime).

Lemma appendAttr_appends_upto (n : nat) :
  forall h (a : Attr), (depth (Val a) <= n)%nat ->
    forall buf multiline level,
      appendAttr rt h buf a multiline level =
      buf ++ appendAttr rt h "" a multiline level.
Proof.
  induction n as [|n IH]; intros h a Hd buf multiline level;
    rewrite !(appendAttr_unfold rt h _ a);
    unfold appendAttr_body, Key, Val in *; cbn [fst snd];
    (destruct (Attr_Equal rt (fst a, Resolve (snd a)) zeroAttr);
       [now rewrite append_nil_r|]);
    pose proof (depth_Resolve (snd a)) as Hr;
    destruct (Resolve (snd a)) as [| | | | | | |l| |] eqn:E;
    try (destruct multiline; reflexivity).
  - simpl in Hr. lia.
  - destruct (length l =? 0)%nat; [now rewrite append_nil_r|].
    assert (Hkids : forall ml lv (ga : Attr), In ga l -> forall b,
               appendAttr rt h b ga ml lv = b ++ appendAttr rt h "" ga ml lv).
    { intros ml lv ga Hin b. apply IH.
      pose proof (depth_member l ga Hin) as Hm. unfold Val in Hm. lia. }
    destruct multiline.
    + rewrite (fold_left_appends _ l (Hkids true (level + 1)%nat)).
      rewrite (fold_left_appends _ l (Hkids true (level + 1)%nat)
                 ("" ++ _)).
      rewrite ?append_assoc. simpl. now rewrite ?append_assoc.
    + rewrite (fold_left_appends _ l (Hkids false 2%nat)).
      rewrite (fold_left_appends _ l (Hkids false 2%nat) ("" ++ _)).
      rewrite ?append_assoc. simpl. now rewrite ?append_assoc.
Qed.

Lemma appendAttr_appends h buf (a : Attr) multiline level :
  appendAttr rt h buf a multiline level =
  buf ++ appendAttr rt h "" a multiline level.
Proof. now apply (appendAttr_appends_upto (depth (Val a))). Qed.

(** X1.  [appendAttr] only appends: what it returns is the buffer it was
    given, followed by a text that does not depend on that buffer; so a
    sequence of attributes is written as the texts of its members, one
    after the other. *)
Theorem X1_appendAttr_appends h buf (a : Attr) (l : list Attr)
    multiline level :
  appendAttr rt h buf a multiline level =
    buf ++ appendAttr rt h "" a multiline level
  /\ fold_left (fun b x => appendAttr rt h b x multiline level) l buf =
     buf ++ String.concat ""
              (List.map (fun x => appendAttr rt h "" x multiline level) l).
Proof.
  split; [apply appendAttr_appends|].
  revert buf. induction l as [|x l IH]; intros buf; simpl.
  - now rewrite append_nil_r.
  - rewrite IH, (appendAttr_appends h buf x).
    destruct l as [|y l]; simpl.
    + now rewrite append_nil_r.
    + now rewrite append_assoc.
Qed.

(** X2.  The same holds for the header and for the three functions that
    walk the chain and the record: each returns its buffer followed by a
    text that is the same for every buffer. *)
Theorem X2_helpers_append h buf (r : Record_) level :
  appendHeader rt h buf r = buf ++ appendHeader rt h "" r
  /\ appendInLineAttrs rt h buf r = buf ++ appendInLineAttrs rt h "" r
  /\ appendMultilineAttrs rt h buf r = buf ++ appendMultilineAttrs rt h "" r
  /\ appendMultilineGroupOrAttrs rt h buf level =
     buf ++ appendMultilineGroupOrAttrs rt h "" level.
Proof.
  assert (Hattrs : forall ml lv (l : list Attr) b,
             fold_left (fun b a => appendAttr rt h b a ml lv) l b =
             b ++ fold_left (fun b a => appendAttr rt h b a ml lv) l "").
  { intros ml lv l b. apply fold_left_appends.
    intros x _ b'. apply appendAttr_appends. }
  split; [|split; [|split]].
  - unfold appendHeader.
    destruct (negb (Time_IsZero (Time_ r)));
      destruct (AddSource (opts h) && negb (PC r =? 0));
      by_assoc.
  - unfold appendInLineAttrs.
    rewrite Hattrs, (Hattrs _ _ _ (fold_left _ _ "")).
    rewrite <- append_assoc. f_equal.
    apply fold_left_appends. intros goa _ b.
    rewrite Hattrs, (Hattrs _ _ _ (if _ : bool then _ else _)).
    destruct (negb (String.eqb (group goa) ""));
      [destruct (Colorful (opts h))|];
      by_assoc.
  - unfold appendMultilineAttrs.
    destruct (_ =? 0)%nat; [now rewrite append_nil_r|].
    rewrite Hattrs, (Hattrs _ _ _ ("" ++ nl)). by_assoc.
  - unfold appendMultilineGroupOrAttrs.
    match goal with |- context [fold_left ?f _ _] => set (step := f) end.
    assert (Hstep : forall b b0 lv goa,
               step (b ++ b0, lv) goa =
               (b ++ fst (step (b0, lv) goa), snd (step (b0, lv) goa))).
    { intros b b0 lv goa. unfold step.
      destruct (negb (String.eqb (group goa) "")); cbn [fst snd]; f_equal.
      - now rewrite append_assoc.
      - rewrite Hattrs, (Hattrs _ _ _ (if _ : bool then _ else _)).
        destruct (0 <? length (attrs goa))%nat; now rewrite ?append_assoc. }
    assert (Hgen : forall g0 b b0 lv,
               fst (fold_left step g0 (b ++ b0, lv)) =
               b ++ fst (fold_left step g0 (b0, lv))).
    { induction g0 as [|goa g0 IH]; intros b b0 lv; cbn [fold_left];
        [reflexivity|].
      rewrite Hstep. destruct (step (b0, lv) goa) as [b1 lv1].
      cbn [fst snd]. apply IH. }
    rewrite <- (append_nil_r buf) at 1. apply Hgen.
Qed.

End AppendOnly.

(** ** Further properties: shape of the rendered text *)

Lemma wholeLines_app (a b : string) :
  wholeLines a -> wholeLines b -> wholeLines (a ++ b).
Proof.
  intros Ha [->|[t ->]].
  - now rewrite append_nil_r.
  - right. exists (a ++ t). now rewrite append_assoc.
Qed.

Lemma wholeLines_line (a : string) : wholeLines (a ++ nl).
Proof. right. now exists a. Qed.

Lemma endsNl_prepend (a b : string) :
  (exists t, b = t ++ nl) -> exists t, a ++ b = t ++ nl.
Proof. intros [t ->]. exists (a ++ t). now rewrite append_assoc. Qed.

Ltac ends_in_nl :=
  right; repeat apply endsNl_prepend;
  first [eexists; reflexivity | now exists ""].

Lemma wholeLines_fold {A} (f : string -> A -> string) (l : list A) :
  (forall x, In x l -> forall b, f b x = b ++ f "" x) ->
  (forall x, In x l -> wholeLines (f "" x)) ->
  forall b, wholeLines b -> wholeLines (fold_left f l b).
Proof.
  induction l as [|x l IH]; intros Happ Hwl b Hb; simpl; [exact Hb|].
  apply IH.
  - intros y Hy. apply Happ. now right.
  - intros y Hy. apply Hwl. now right.
  - rewrite (Happ x (or_introl eq_refl) b).
    apply wholeLines_app; [exact Hb|]. apply Hwl. now left.
Qed.

Section Shape.

Context (rt : Runtime).

(** X3.  In inline mode the indentation level plays no part: [appendAttr]
    writes the same text at every level, so the fixed level 2 it passes to
    the members of a group cannot be seen in the output. *)
Theorem X3_inline_ignores_level h buf (a : Attr) level level' :
  appendAttr rt h buf a false level = appendAttr rt h buf a false level'.
Proof.
  rewrite !(appendAttr_unfold rt h buf a).
  unfold appendAttr_body. cbn [Key Val fst snd].
  destruct (Attr_Equal rt (fst a, Resolve (snd a)) zeroAttr); [reflexivity|].
  destruct (Resolve (snd a)); reflexivity.
Qed.

Lemma appendAttr_wholeLines_upto (n : nat) :
  forall h (a : Attr) level, (depth (Val a) <= n)%nat ->
    wholeLines (appendAttr rt h "" a true level).
Proof.
  induction n as [|n IH]; intros h a level Hd;
    rewrite (appendAttr_unfold rt h _ a);
    unfold appendAttr_body, Key, Val in *; cbn [fst snd];
    (destruct (Attr_Equal rt (fst a, Resolve (snd a)) zeroAttr);
       [now left|]);
    pose proof (depth_Resolve (snd a)) as Hr;
    destruct (Resolve (snd a)) as [| | | | | | |l| |] eqn:E;
    try ends_in_nl.
  - simpl in Hr. lia.
  - destruct (length l =? 0)%nat; [now left|].
    apply wholeLines_fold.
    + intros x _ b. apply appendAttr_appends.
    + intros x Hin. apply IH.
      pose proof (depth_member l x Hin) as Hm. unfold Val in Hm. lia.
    + ends_in_nl.
Qed.

(** X4.  In multiline mode the text [appendAttr] adds for an attribute,
    groups and their members included, is empty or ends in a newline: it is
    made of complete lines, and so is the text of a sequence of
    attributes. *)
Theorem X4_multiline_whole_lines h (a : Attr) (l : list Attr) level :
  wholeLines (appendAttr rt h "" a true level)
  /\ wholeLines (fold_left (fun b x => appendAttr rt h b x true level) l "").
Proof.
  split.
  - now apply (appendAttr_wholeLines_upto (depth (Val a))).
  - apply wholeLines_fold.
    + intros x _ b. apply appendAttr_appends.
    + intros x _. now apply (appendAttr_wholeLines_upto (depth (Val x))).
    + now left.
Qed.

(** X5.  [appendMultilineAttrs] counts the attributes of the record, not
    the ones that are written: a record that has attributes, all of them
    left out by [appendAttr], still gets the newline after the header, and
    nothing else. *)
Theorem X5_elided_attrs_leave_newline h buf (r : Record_) :
  Attrs r <> [] ->
  (forall a, In a (Attrs r) -> forall b, appendAttr rt h b a true 1%nat = b) ->
  appendMultilineAttrs rt h buf r = buf ++ nl.
Proof.
  intros Hne Hel. unfold appendMultilineAttrs.
  assert (Hcount : forall (l : list Attr) k,
             fold_left (fun n _ => S n) l k = (length l + k)%nat).
  { induction l as [|x l IH]; intros k; simpl; [reflexivity|].
    rewrite IH. lia. }
  rewrite Hcount.
  destruct (Attrs r) as [|a l] eqn:E; [now elim Hne|]. simpl.
  assert (Hfold : forall (l' : list Attr) b,
             (forall x, In x l' -> In x (a :: l)) ->
             fold_left (fun buf a => appendAttr rt h buf a true 1%nat) l' b = b).
  { induction l' as [|x l' IH]; intros b Hsub; simpl; [reflexivity|].
    rewrite (Hel x (Hsub x (or_introl eq_refl))).
    apply IH. intros y Hy. apply Hsub. now right. }
  rewrite (Hel a (or_introl eq_refl)).
  apply Hfold. intros x Hx. now right.
Qed.

End Shape.

(** A record whose one attribute is an empty group. *)
Lemma X5_witness :
  Attrs {| Time_ := 0; Message := "m"; Level_ := LevelInfo; PC := 0;
           Attrs := [("g", GroupValue [])] |} <> []
  /\ appendMultilineAttrs sampleRuntime (sampleHandler plainOptions) "head"
       {| Time_ := 0; Message := "m"; Level_ := LevelInfo; PC := 0;
          Attrs := [("g", GroupValue [])] |}
     = "head" ++ nl.
Proof.
  split; [discriminate|].
  apply (X5_elided_attrs_leave_newline sampleRuntime
           (sampleHandler plainOptions) "head"
           {| Time_ := 0; Message := "m"; Level_ := LevelInfo; PC := 0;
              Attrs := [("g", GroupValue [])] |}).
  - discriminate.
  - intros a [<-|[]] b. reflexivity.
Defined.

(** ** Further properties: the store across [Handle] and derivations *)

(** A run of [Handle] that gives a result started from a handler, an
    unlocked mutex and a writer. *)
Lemma Handle_inv (rt : Runtime) (w : World) (hp : ptr) (r : Record_)
    (err : error) (w' : World) :
  Handle rt hp r w = Some (err, w') ->
  exists h wr,
    handlers w !! hp = Some h
    /\ mutexes w !! mu h = Some false
    /\ writers w !! out h = Some wr.
Proof.
  unfold Handle. unfold bind at 1. unfold loadHandler at 1.
  destruct (handlers w !! hp) as [h|] eqn:Hh; [|discriminate].
  pose proof (lookup_lt_Some _ _ _ Hh) as Hlt.
  unfold bind at 1. rewrite (removeEmptyGroup_run w hp h r Hh).
  unfold bind at 1. unfold loadHandler. cbn [handlers].
  rewrite list_lookup_insert_eq by exact Hlt.
  unfold bind, Lock, Write, Unlock, ret. cbn [mutexes writers events mu out set_goas].
  destruct (mutexes w !! mu h) as [[|]|] eqn:Hm; try discriminate.
  cbn [mutexes writers events].
  destruct (writers w !! out h) as [wr|] eqn:Hw; [|discriminate].
  intros _. now exists h, wr.
Qed.

Lemma trimLoop_endsInBatch (n : nat) :
  forall g : list groupOrAttrs,
    (length g <= n)%nat -> endsInBatch (trimLoop n g) = true.
Proof.
  induction n as [|n IH]; intros g Hn.
  - destruct g; [reflexivity | simpl in Hn; lia].
  - induction g as [|x g' _] using rev_ind; [reflexivity|].
    rewrite length_app in Hn. simpl in Hn. rewrite trimLoop_snoc.
    destruct (String.eqb (group x) "") eqn:E; simpl.
    + unfold endsInBatch. now rewrite last_snoc.
    + apply IH. lia.
Qed.

Lemma trimLoop_fixed (n : nat) (g : list groupOrAttrs) :
  endsInBatch g = true -> trimLoop n g = g.
Proof.
  intros He. destruct n as [|n]; [reflexivity|].
  induction g as [|x g' _] using rev_ind; [reflexivity|].
  rewrite trimLoop_snoc. unfold endsInBatch in He.
  rewrite last_snoc in He. now rewrite He.
Qed.

Lemma effectiveChain_fixed (h : SlogPretty) (r : Record_) :
  endsInBatch (goas h) = true -> effectiveChain h r = goas h.
Proof.
  intros He. unfold effectiveChain.
  destruct (NumAttrs r =? 0)%nat; [|reflexivity]. now apply trimLoop_fixed.
Qed.

(** X6.  A chain that is empty or ends in a batch of attributes is the
    chain [Handle] renders, whatever the record; and for a record without
    attributes the chain [Handle] renders is always of that kind, so that
    trimming a second time changes nothing. *)
Theorem X6_trimming_fixed_points (h : SlogPretty) (r : Record_) :
  (endsInBatch (goas h) = true -> effectiveChain h r = goas h)
  /\ (NumAttrs r = 0%nat -> endsInBatch (effectiveChain h r) = true)
  /\ effectiveChain (set_goas h (effectiveChain h r)) r = effectiveChain h r.
Proof.
  split; [apply effectiveChain_fixed|].
  unfold effectiveChain. cbn [goas set_goas]. split.
  - intros ->. simpl. now apply trimLoop_endsInBatch.
  - destruct (NumAttrs r =? 0)%nat; [|reflexivity].
    apply trimLoop_fixed. now apply trimLoop_endsInBatch.
Qed.

(** A chain that ends in a batch, and a record without attributes. *)
Lemma X6_witness :
  endsInBatch [userGroup; {| group := ""; attrs := idBob |}] = true
  /\ NumAttrs emptyRecord = 0%nat
  /\ effectiveChain
       {| opts := plainOptions;
          goas := [userGroup; {| group := ""; attrs := idBob |}];
          out := 0%nat; mu := 0%nat |} emptyRecord
     = [userGroup; {| group := ""; attrs := idBob |}].
Proof.
  split; [reflexivity|]. split; [reflexivity|].
  apply (proj1 (X6_trimming_fixed_points
           {| opts := plainOptions;
              goas := [userGroup; {| group := ""; attrs := idBob |}];
              out := 0%nat; mu := 0%nat |} emptyRecord)).
  reflexivity.
Defined.

(** X7.  What [Handle] leaves alone.  A run of [Handle] changes no
    [Options] object, no mutex, no handler but its receiver and no sink but
    its own; of the receiver it keeps the options, the sink and the mutex,
    and its chain afterwards is an initial part of the chain before.  When
    the chain is empty or ends in a batch of attributes, the handlers are
    all as they were. *)
Theorem X7_Handle_frame (rt : Runtime) (w : World) (hp : ptr) (h : SlogPretty)
    (r : Record_) (err : error) (w' : World) :
  handlers w !! hp = Some h ->
  Handle rt hp r w = Some (err, w') ->
  options w' = options w
  /\ mutexes w' = mutexes w
  /\ length (handlers w') = length (handlers w)
  /\ (forall q, q <> hp -> handlers w' !! q = handlers w !! q)
  /\ (forall o, o <> out h -> writers w' !! o = writers w !! o)
  /\ (exists h',
        handlers w' !! hp = Some h'
        /\ opts h' = opts h /\ out h' = out h /\ mu h' = mu h
        /\ exists k, goas h' = take k (goas h))
  /\ (endsInBatch (goas h) = true -> handlers w' = handlers w).
Proof.
  intros Hh Hrun.
  destruct (Handle_inv rt w hp r err w' Hrun) as (h1 & wr & Hh1 & Hm & Hw).
  assert (h1 = h) as -> by congruence.
  rewrite (Handle_run rt w hp h r wr Hh Hm Hw) in Hrun.
  injection Hrun as _ <-. cbn [options mutexes handlers writers].
  pose proof (lookup_lt_Some _ _ _ Hh) as Hlt.
  split; [reflexivity|]. split; [reflexivity|].
  split; [apply length_insert|].
  split; [intros q Hq; now apply list_lookup_insert_ne|].
  split; [intros o Ho; now apply list_lookup_insert_ne|].
  split.
  - eexists. split; [now apply list_lookup_insert_eq|].
    cbn [opts out mu goas set_goas]. do 3 (split; [reflexivity|]).
    unfold effectiveChain. destruct (NumAttrs r =? 0)%nat.
    + now apply trimLoop_spec.
    + exists (length (goas h)). now rewrite firstn_all.
  - intros He.
    rewrite (effectiveChain_fixed h r He), set_goas_same.
    now apply list_insert_id.
Qed.

(** One [Handle] on a chain that ends in two markers. *)
Lemma X7_witness :
  handlers (worldOf plainOptions sampleChain okWriter) !! 0%nat
    = Some {| opts := plainOptions; goas := sampleChain;
              out := 0%nat; mu := 0%nat |}
  /\ options (worldAfter (worldOf plainOptions sampleChain okWriter)
                (Handle sampleRuntime 0%nat emptyRecord
                        (worldOf plainOptions sampleChain okWriter)))
     = options (worldOf plainOptions sampleChain okWriter).
Proof.
  split; [reflexivity|].
  apply (X7_Handle_frame sampleRuntime
           (worldOf plainOptions sampleChain okWriter) 0%nat
           {| opts := plainOptions; goas := sampleChain;
              out := 0%nat; mu := 0%nat |}
           emptyRecord None
           (worldAfter (worldOf plainOptions sampleChain okWriter)
              (Handle sampleRuntime 0%nat emptyRecord
                      (worldOf plainOptions sampleChain okWriter)))
           eq_refl eq_refl).
Defined.

(** X8.  [Handle] can be called again: after a run that gave a result, a
    run on any record gives a result too.  The two runs leave the mutex
    unlocked and show as two lock, write, unlock sequences, one after the
    other, on the same mutex and sink. *)
Theorem X8_Handle_again (rt : Runtime) (w : World) (hp : ptr) (r r2 : Record_)
    (err : error) (w' : World) :
  Handle rt hp r w = Some (err, w') ->
  exists h err2 w2 line line2,
    handlers w !! hp = Some h
    /\ Handle rt hp r2 w' = Some (err2, w2)
    /\ mutexes w2 = mutexes w
    /\ events w2 =
       (events w ++ [EvLock (mu h); EvWrite (out h) line; EvUnlock (mu h);
                     EvLock (mu h); EvWrite (out h) line2; EvUnlock (mu h)])%list.
Proof.
  intros Hrun.
  destruct (Handle_inv rt w hp r err w' Hrun) as (h & wr & Hh & Hm & Hw).
  rewrite (Handle_run rt w hp h r wr Hh Hm Hw) in Hrun.
  injection Hrun as _ <-.
  pose proof (lookup_lt_Some _ _ _ Hh) as Hlt.
  pose proof (lookup_lt_Some _ _ _ Hw) as Hlw.
  match goal with
  | |- context [Handle rt hp r2 ?w1] =>
      pose proof (Handle_run rt w1 hp (set_goas h (effectiveChain h r)) r2
                    {| accept := accept wr;
                       stream := stream wr ++
                         prefix (fst (accept wr (stream wr)
                                   (renderLine rt h
                                      (set_goas h (effectiveChain h r)) r)))
                                (renderLine rt h
                                   (set_goas h (effectiveChain h r)) r) |})
        as Hrun2
  end.
  cbn [handlers mutexes writers mu out set_goas] in Hrun2.
  specialize (Hrun2 (list_lookup_insert_eq _ _ _ Hlt) Hm
                    (list_lookup_insert_eq _ _ _ Hlw)).
  cbv zeta in Hrun2.
  eexists h, _, _, _, _. split; [exact Hh|]. split; [exact Hrun2|].
  cbn [mutexes events]. split; [reflexivity|].
  now rewrite <- app_assoc.
Qed.

(** Two records through the sample handler. *)
Lemma X8_witness :
  exists err2 w2,
    Handle sampleRuntime 0%nat serverStarted
      (worldAfter (worldOf plainOptions [] okWriter)
         (Handle sampleRuntime 0%nat emptyRecord
                 (worldOf plainOptions [] okWriter)))
    = Some (err2, w2).
Proof.
  destruct (X8_Handle_again sampleRuntime (worldOf plainOptions [] okWriter)
              0%nat emptyRecord serverStarted None
              (worldAfter (worldOf plainOptions [] okWriter)
                 (Handle sampleRuntime 0%nat emptyRecord
                         (worldOf plainOptions [] okWriter)))
              eq_refl)
    as (h & err2 & w2 & line & line2 & _ & Hrun2 & _).
  now exists err2, w2.
Defined.

(** ** Further properties: construction *)

Lemma New_inv (sink : ptr) (arg : option ptr) (w : World) (hp : ptr)
    (w' : World) :
  New sink arg w = Some (hp, w') ->
  exists o,
    hp = length (handlers w)
    /\ handlers w' = (handlers w ++ [{| opts := o; goas := []; out := sink;
                                        mu := length (mutexes w) |}])%list
    /\ mutexes w' = (mutexes w ++ [false])%list
    /\ writers w' = writers w
    /\ events w' = events w
    /\ TimeFormat o <> "".
Proof.
  unfold New, DefaultOptions, bind, ret, loadOptions, storeOptions,
    newOptions, newMutex, newHandler.
  destruct arg as [p|].
  - destruct (options w !! p) as [o|] eqn:Ho; [|discriminate].
    pose proof (lookup_lt_Some _ _ _ Ho) as Hlt.
    destruct (String.eqb_spec (TimeFormat o) "") as [He|He].
    + rewrite Ho. cbn [options handlers mutexes writers events].
      rewrite list_lookup_insert_eq by exact Hlt.
      intros [= <- <-]. eexists. cbn [handlers mutexes writers events].
      repeat (split; [reflexivity|]). discriminate.
    + cbn [options handlers mutexes writers events]. rewrite Ho.
      intros [= <- <-]. exists o. cbn [handlers mutexes writers events].
      repeat (split; [reflexivity|]). exact He.
  - cbn [options handlers mutexes writers events].
    rewrite lookup_app_r by lia. rewrite Nat.sub_diag. simpl.
    rewrite lookup_app_r by lia. rewrite Nat.sub_diag. simpl.
    intros [= <- <-]. eexists. cbn [handlers mutexes writers events].
    repeat (split; [reflexivity|]). discriminate.
Qed.

(** X9.  [New] with nil options allocates the default options (level Info,
    colours on, single line, no source, the default time format), leaves
    every [Options] object of the store as it was, and returns a handler
    with these options, an empty chain and a mutex of its own. *)
Theorem X9_New_nil_defaults (w : World) (sink : ptr) :
  exists w',
    New sink None w = Some (length (handlers w), w')
    /\ options w' =
       (options w ++ [{| Level := LevelInfo; AddSource := false;
                         Colorful := true; Multiline := false;
                         TimeFormat := DefaultTimeFormat |}])%list
    /\ handlers w' =
       (handlers w ++ [{| opts := {| Level := LevelInfo; AddSource := false;
                                     Colorful := true; Multiline := false;
                                     TimeFormat := DefaultTimeFormat |};
                          goas := []; out := sink;
                          mu := length (mutexes w) |}])%list
    /\ mutexes w' = (mutexes w ++ [false])%list.
Proof.
  unfold New, DefaultOptions, bind, ret, loadOptions, storeOptions,
    newOptions, newMutex, newHandler.
  cbn [options handlers mutexes writers events].
  rewrite lookup_app_r by lia. rewrite Nat.sub_diag. simpl.
  rewrite lookup_app_r by lia. rewrite Nat.sub_diag. simpl.
  eexists. split; [reflexivity|]. cbn [options handlers mutexes].
  repeat split.
Qed.

(** X10.  [New], given options with a time format, changes nothing in the
    store but for the handler and the mutex it allocates, and the handler
    holds the options as given. *)
Theorem X10_New_keeps_given_options (w : World) (sink p : ptr) (o : Options) :
  options w !! p = Some o ->
  TimeFormat o <> "" ->
  exists w',
    New sink (Some p) w = Some (length (handlers w), w')
    /\ options w' = options w
    /\ handlers w' =
       (handlers w ++ [{| opts := o; goas := []; out := sink;
                          mu := length (mutexes w) |}])%list
    /\ mutexes w' = (mutexes w ++ [false])%list
    /\ writers w' = writers w
    /\ events w' = events w.
Proof.
  intros Ho Hfmt.
  unfold New, bind, ret, loadOptions, storeOptions, newMutex, newHandler.
  rewrite Ho. apply String.eqb_neq in Hfmt. rewrite Hfmt.
  cbn [options handlers mutexes writers events]. rewrite Ho.
  eexists. split; [reflexivity|]. cbn [options handlers mutexes writers events].
  repeat split.
Qed.

(** Options that name a time format. *)
Lemma X10_witness :
  options {| handlers := []; options := [plainOptions]; mutexes := [];
             writers := [okWriter]; events := [] |} !! 0%nat
    = Some plainOptions
  /\ TimeFormat plainOptions <> ""
  /\ exists w',
       New 0%nat (Some 0%nat)
           {| handlers := []; options := [plainOptions]; mutexes := [];
              writers := [okWriter]; events := [] |}
       = Some (0%nat, w')
       /\ options w' = [plainOptions].
Proof.
  split; [reflexivity|]. split; [discriminate|].
  destruct (X10_New_keeps_given_options
              {| handlers := []; options := [plainOptions]; mutexes := [];
                 writers := [okWriter]; events := [] |}
              0%nat 0%nat plainOptions eq_refl ltac:(discriminate))
    as (w' & Hrun & Hopts & _).
  exists w'. split; [exact Hrun | exact Hopts].
Defined.

(** X11.  The handler [New] returns can be used at once: it has a time
    format, an empty chain and a new, unlocked mutex, and when its sink
    exists [Handle] gives a result
    for every record. *)
Theorem X11_New_ready (rt : Runtime) (w : World) (sink : ptr)
    (arg : option ptr) (hp : ptr) (w' : World) (wr : Writer) (r : Record_) :
  New sink arg w = Some (hp, w') ->
  writers w !! sink = Some wr ->
  exists h,
    handlers w' !! hp = Some h
    /\ TimeFormat (opts h) <> ""
    /\ goas h = []
    /\ out h = sink
    /\ mu h = length (mutexes w)
    /\ mutexes w' !! mu h = Some false
    /\ exists w2,
         Handle rt hp r w' =
           Some (snd (accept wr (stream wr) (renderLine rt h h r)), w2)
         /\ events w2 = (events w ++ [EvLock (mu h);
                                      EvWrite sink (renderLine rt h h r);
                                      EvUnlock (mu h)])%list.
Proof.
  intros Hnew Hw.
  destruct (New_inv sink arg w hp w' Hnew)
    as (o & -> & Hhs & Hms & Hws & Hev & Hfmt).
  set (h := {| opts := o; goas := []; out := sink; mu := length (mutexes w) |}).
  assert (Hh : handlers w' !! length (handlers w) = Some h).
  { rewrite Hhs, lookup_app_r by lia. now rewrite Nat.sub_diag. }
  assert (Hm : mutexes w' !! mu h = Some false).
  { rewrite Hms. cbn [mu h]. rewrite lookup_app_r by lia.
    now rewrite Nat.sub_diag. }
  assert (Hw' : writers w' !! out h = Some wr) by (now rewrite Hws).
  exists h. split; [exact Hh|]. split; [exact Hfmt|].
  do 3 (split; [reflexivity|]). split; [exact Hm|].
  pose proof (Handle_run rt w' (length (handlers w)) h r wr Hh Hm Hw') as Hrun.
  cbv zeta in Hrun.
  assert (Hsame : set_goas h (effectiveChain h r) = h).
  { unfold effectiveChain. cbn [goas h].
    destruct (NumAttrs r =? 0)%nat; reflexivity. }
  rewrite Hsame in Hrun.
  eexists. split; [exact Hrun|]. cbn [events]. now rewrite Hev.
Qed.

(** [New] with nil options, then one record. *)
Lemma X11_witness :
  writers callerWorld !! 0%nat = Some okWriter
  /\ exists h w2,
       handlers (worldAfter callerWorld (New 0%nat None callerWorld)) !! 0%nat
         = Some h
       /\ Handle sampleRuntime 0%nat serverStarted
                 (worldAfter callerWorld (New 0%nat None callerWorld))
          = Some (None, w2).
Proof.
  split; [reflexivity|].
  destruct (X11_New_ready sampleRuntime callerWorld 0%nat None 0%nat
              (worldAfter callerWorld (New 0%nat None callerWorld))
              okWriter serverStarted eq_refl eq_refl)
    as (h & Hh & _ & _ & _ & _ & _ & w2 & Hrun & _).
  exists h, w2. split; [exact Hh | exact Hrun].
Defined.

(** ** Further properties: chains stay well formed *)

(** X12.  Every operation of the handler keeps the chains of the store
    well formed: each element of each chain is a group name without
    attributes, or a non-empty batch of attributes without name.  This
    holds for [New], [WithAttrs], [WithGroup] and [Handle]; a store
    without handlers is well formed, so every chain built through these
    operations is. *)
Theorem X12_chains_stay_well_formed (rt : Runtime) (w : World) :
  wfChains w ->
  (forall sink arg hp w', New sink arg w = Some (hp, w') -> wfChains w')
  /\ (forall hp batch p' w',
        WithAttrs hp batch w = Some (p', w') -> wfChains w')
  /\ (forall hp name p' w',
        WithGroup hp name w = Some (p', w') -> wfChains w')
  /\ (forall hp r err w', Handle rt hp r w = Some (err, w') -> wfChains w').
Proof.
  unfold wfChains. intros Hwf.
  assert (Hderive : forall hp goa p' w',
             wfGoa goa -> withGroupOrAttrs hp goa w = Some (p', w') ->
             Forall (fun h => Forall wfGoa (goas h)) (handlers w')).
  { intros hp goa p' w' Hgoa Hrun.
    destruct (handlers w !! hp) as [h|] eqn:Hh.
    - rewrite (withGroupOrAttrs_run w hp h goa Hh) in Hrun.
      injection Hrun as _ <-. cbn [handlers].
      apply Forall_app. split; [exact Hwf|].
      constructor; [|constructor]. cbn [goas set_goas].
      apply Forall_app. split.
      + exact (Forall_lookup_1 _ _ _ _ Hwf Hh).
      + constructor; [exact Hgoa | constructor].
    - unfold withGroupOrAttrs, bind, loadHandler in Hrun.
      rewrite Hh in Hrun. discriminate. }
  split; [|split; [|split]].
  - intros sink arg hp w' Hnew.
    destruct (New_inv sink arg w hp w' Hnew) as (o & _ & -> & _).
    apply Forall_app. split; [exact Hwf|].
    constructor; [|constructor]. constructor.
  - intros hp batch p' w'. unfold WithAttrs.
    destruct batch as [|a batch]; simpl.
    + unfold ret. now intros [= _ <-].
    + apply Hderive. right. split; [reflexivity | discriminate].
  - intros hp name p' w'. unfold WithGroup.
    destruct (String.eqb_spec name "") as [->|Hname].
    + unfold ret. now intros [= _ <-].
    + apply Hderive. left. split; [exact Hname | reflexivity].
  - intros hp r err w' Hrun.
    destruct (Handle_inv rt w hp r err w' Hrun) as (h & wr & Hh & Hm & Hw).
    rewrite (Handle_run rt w hp h r wr Hh Hm Hw) in Hrun.
    injection Hrun as _ <-. cbn [handlers].
    apply Forall_insert; [exact Hwf|]. cbn [goas set_goas].
    pose proof (Forall_lookup_1 _ _ _ _ Hwf Hh) as Hc.
    unfold effectiveChain. destruct (NumAttrs r =? 0)%nat; [|exact Hc].
    destruct (trimLoop_spec (length (goas h)) (goas h) (le_n _)) as [_ [k ->]].
    now apply Forall_take.
Qed.

(** From a handler bound to a batch and two groups: [WithGroup], then
    [WithAttrs] on the result, then [Handle] of a record without attributes
    on the handler in between, which is cut back to its batch, then [New]. *)
Lemma X12_witness :
  wfChains boundWorld
  /\ chainOf boundWorld 0%nat = Some sampleChain
  /\ wfChains boundWorld4
  /\ chainOf boundWorld4 0%nat = Some sampleChain
  /\ chainOf boundWorld4 1%nat = Some [{| group := ""; attrs := idBob |}]
  /\ chainOf boundWorld4 2%nat
     = Some (sampleChain ++ [{| group := "req"; attrs := [] |};
                             {| group := ""; attrs := idBob |}])%list
  /\ chainOf boundWorld4 3%nat = Some [].
Proof.
  assert (H0 : wfChains boundWorld).
  { constructor; [|constructor]. cbn [goas]. unfold sampleChain, userGroup.
    constructor; [right; split; [reflexivity | discriminate]|].
    constructor; [left; split; [discriminate | reflexivity]|].
    constructor; [left; split; [discriminate | reflexivity]|].
    constructor. }
  pose proof (proj1 (proj2 (proj2
                (X12_chains_stay_well_formed sampleRuntime boundWorld H0)))
                0%nat "req" 1%nat boundWorld1 eq_refl) as H1.
  pose proof (proj1 (proj2
                (X12_chains_stay_well_formed sampleRuntime boundWorld1 H1))
                1%nat idBob 2%nat boundWorld2 eq_refl) as H2.
  pose proof (proj2 (proj2 (proj2
                (X12_chains_stay_well_formed sampleRuntime boundWorld2 H2)))
                1%nat emptyRecord None boundWorld3 eq_refl) as H3.
  pose proof (proj1
                (X12_chains_stay_well_formed sampleRuntime boundWorld3 H3)
                0%nat None 3%nat boundWorld4 eq_refl) as H4.
  split; [exact H0|]. split; [reflexivity|]. split; [exact H4|].
  repeat split.
Defined.

(** ** Further properties: the earlier handler and the present one *)

Section TwoHandlers.

Context (rt : Runtime).

Lemma Styler_appendAttr_rec_eq (n : nat) :
  forall (sh : Styler.SlogStylerHandler) (h : SlogPretty) buf (a : Attr)
         multiline level,
    Styler.opts sh = opts h ->
    Styler.appendAttr_rec rt n sh buf a multiline level =
    appendAttr_rec rt n h buf a multiline level.
Proof.
  induction n as [|n IH]; intros sh h buf a multiline level Ho;
    [reflexivity|].
  simpl. unfold Styler.appendAttr_body, appendAttr_body, Key, Val.
  rewrite Ho. cbn [fst snd].
  destruct (Attr_Equal rt (fst a, Resolve (snd a)) zeroAttr); [reflexivity|].
  destruct (Resolve (snd a)) as [| | | | | | |l| |]; try reflexivity.
  destruct (length l =? 0)%nat; [reflexivity|].
  destruct multiline; apply fold_left_ext_In; intros b x _; now apply IH.
Qed.

(** X13.  The formatter of the earlier handler and the formatter of the
    present one write the same text for every attribute, buffer, mode and
    level, when the two handlers have the same options. *)
Theorem X13_formatters_agree (sh : Styler.SlogStylerHandler) (h : SlogPretty)
    buf (a : Attr) multiline level :
  Styler.opts sh = opts h ->
  Styler.appendAttr rt sh buf a multiline level =
  appendAttr rt h buf a multiline level.
Proof. intros Ho. now apply Styler_appendAttr_rec_eq. Qed.

Lemma Styler_renderLine_eq (sh : Styler.SlogStylerHandler) (h : SlogPretty)
    (r : Record_) :
  Styler.opts sh = opts h -> goas h = [] ->
  Styler.renderLine rt sh r = renderLine rt h h r.
Proof.
  intros Ho Hg.
  assert (Hfold : forall ml lv (l : list Attr) b,
             fold_left (fun buf a => Styler.appendAttr rt sh buf a ml lv) l b =
             fold_left (fun buf a => appendAttr rt h buf a ml lv) l b).
  { intros ml lv l b. apply fold_left_ext_In. intros b' x _.
    now apply Styler_appendAttr_rec_eq. }
  unfold Styler.renderLine, renderLine, appendHeader,
    Styler.setColorLevel, setColorLevel,
    Styler.appendMultilineAttrs, appendMultilineAttrs,
    Styler.appendInLineAttrs, appendInLineAttrs,
    appendMultilineGroupOrAttrs.
  rewrite Ho, Hg. cbn [fold_left fst].
  destruct (Multiline (opts h)).
  - destruct (fold_left _ (Attrs r) 0%nat =? 0)%nat; [reflexivity|].
    now rewrite Hfold.
  - now rewrite Hfold.
Qed.

(** X14.  A handler of the present kind with an empty chain behaves as
    the earlier handler with the same options, sink and mutex: [Handle]
    gives the same result and leaves the same store.  The earlier handler
    stays so after [WithAttrs] and [WithGroup], which return it as it is:
    what is bound to it is never written. *)
Theorem X14_empty_chain_is_earlier_handler (w : World) (hp : ptr)
    (h : SlogPretty) (sh : Styler.SlogStylerHandler) (r : Record_)
    (batch : list Attr) (name : string) :
  handlers w !! hp = Some h ->
  goas h = [] ->
  Styler.opts sh = opts h -> Styler.out sh = out h -> Styler.mu sh = mu h ->
  Handle rt hp r w = Styler.Handle rt sh r w
  /\ Styler.Handle rt (Styler.WithGroup (Styler.WithAttrs sh batch) name) r w
     = Styler.Handle rt sh r w.
Proof.
  intros Hh Hg Ho Hout Hmu. split; [|reflexivity].
  unfold Handle. unfold bind at 1. unfold loadHandler at 1. rewrite Hh.
  unfold bind at 1. rewrite (removeEmptyGroup_run w hp h r Hh).
  assert (Hsame : set_goas h (effectiveChain h r) = h).
  { unfold effectiveChain. rewrite Hg.
    destruct h as [o g s m]. cbn [goas] in Hg. subst g.
    destruct (NumAttrs r =? 0)%nat; reflexivity. }
  rewrite Hsame. unfold ptr in *. rewrite (list_insert_id _ _ _ Hh).
  replace {| handlers := handlers w; options := options w;
             mutexes := mutexes w; writers := writers w;
             events := events w |} with w by (now destruct w).
  unfold bind at 1. unfold loadHandler. unfold ptr in *. rewrite Hh.
  unfold Styler.Handle.
  now rewrite Hout, Hmu, (Styler_renderLine_eq sh h r Ho Hg).
Qed.

End TwoHandlers.

(** The sample handler and the earlier handler with its options. *)
Lemma X13_witness :
  Styler.opts {| Styler.opts := plainOptions; Styler.out := 0%nat;
                 Styler.mu := 0%nat |}
    = opts (sampleHandler plainOptions)
  /\ Styler.appendAttr sampleRuntime
       {| Styler.opts := plainOptions; Styler.out := 0%nat; Styler.mu := 0%nat |}
       "" ("details", GroupValue idBob) true 1
     = appendAttr sampleRuntime (sampleHandler plainOptions)
         "" ("details", GroupValue idBob) true 1.
Proof.
  split; [reflexivity|].
  apply (X13_formatters_agree sampleRuntime
           {| Styler.opts := plainOptions; Styler.out := 0%nat;
              Styler.mu := 0%nat |}
           (sampleHandler plainOptions) "" ("details", GroupValue idBob)
           true 1%nat eq_refl).
Defined.

Lemma X14_witness :
  handlers (worldOf plainOptions [] okWriter) !! 0%nat
    = Some (sampleHandler plainOptions)
  /\ goas (sampleHandler plainOptions) = []
  /\ Handle sampleRuntime 0%nat serverStarted (worldOf plainOptions [] okWriter)
     = Styler.Handle sampleRuntime
         {| Styler.opts := plainOptions; Styler.out := 0%nat;
            Styler.mu := 0%nat |}
         serverStarted (worldOf plainOptions [] okWriter).
Proof.
  split; [reflexivity|]. split; [reflexivity|].
  apply (X14_empty_chain_is_earlier_handler sampleRuntime
           (worldOf plainOptions [] okWriter) 0%nat
           (sampleHandler plainOptions)
           {| Styler.opts := plainOptions; Styler.out := 0%nat;
              Styler.mu := 0%nat |}
           serverStarted [] "" eq_refl eq_refl eq_refl eq_refl eq_refl).
Defined.

(** ** Further properties: what a derivation adds to the line *)

Section ChainText.

Context (rt : Runtime).

(** The formatter reads the options of the handler and nothing else. *)
Lemma appendAttr_same_opts (h1 h2 : SlogPretty) buf (a : Attr) multiline level :
  opts h1 = opts h2 ->
  appendAttr rt h1 buf a multiline level =
  appendAttr rt h2 buf a multiline level.
Proof.
  intros Ho. unfold appendAttr.
  generalize (S (depth (Val a))) as n. intros n.
  revert buf a multiline level.
  induction n as [|n IH]; intros buf a multiline level; [reflexivity|]. simpl.
  unfold appendAttr_body, Key, Val. rewrite Ho. cbn [fst snd].
  destruct (Attr_Equal rt (fst a, Resolve (snd a)) zeroAttr); [reflexivity|].
  destruct (Resolve (snd a)) as [| | | | | | |l| |]; try reflexivity.
  destruct (length l =? 0)%nat; [reflexivity|].
  destruct multiline; apply fold_left_ext_In; intros b' x _; apply IH.
Qed.

(** X15.  Inline mode: for a chain with one more element, the text after
    the header is the text of the shorter chain, then the label of the new
    element if it is a group (in cyan when colours are on, plain when they
    are off), then its attributes, then the attributes of the record. *)
Theorem X15_inline_chain_extends (h : SlogPretty) (g : list groupOrAttrs)
    (goa : groupOrAttrs) (buf : bytes) (r : Record_) :
  appendInLineAttrs rt (set_goas h (g ++ [goa])%list) buf r =
  appendInLineAttrs rt (set_goas h g) buf (withoutAttrs r)
    ++ (if negb (String.eqb (group goa) "") then
          if Colorful (opts h) then " " ++ colorize cyan (group goa) ++ ":"
          else " " ++ group goa ++ ":"
        else "")
    ++ fold_left (fun b a => appendAttr rt h b a false 0%nat) (attrs goa) ""
    ++ fold_left (fun b a => appendAttr rt h b a false 0%nat) (Attrs r) "".
Proof.
  assert (Hattrs : forall h' (l : list Attr) b,
             fold_left (fun b a => appendAttr rt h' b a false 0%nat) l b =
             b ++ fold_left (fun b a => appendAttr rt h' b a false 0%nat) l "").
  { intros h' l b. apply fold_left_appends.
    intros x _ b'. apply appendAttr_appends. }
  assert (Hsame : forall g' b (a : Attr),
             appendAttr rt (set_goas h g') b a false 0%nat =
             appendAttr rt h b a false 0%nat).
  { intros g' b a. now apply appendAttr_same_opts. }
  pose (FG := fun (hh : SlogPretty) (buf : bytes) (goa0 : groupOrAttrs) =>
          fold_left (fun b a => appendAttr rt hh b a false 0%nat) (attrs goa0)
            (if negb (String.eqb (group goa0) "") then
               if Colorful (opts h) then
                 buf ++ " " ++ colorize cyan (group goa0) ++ ":"
               else buf ++ " " ++ group goa0 ++ ":"
             else buf)).
  assert (HFG : forall g' (l : list groupOrAttrs) b,
             fold_left (FG (set_goas h g')) l b = fold_left (FG h) l b).
  { intros g' l b. apply fold_left_ext_In. intros b' goa' _. unfold FG.
    apply fold_left_ext_In. intros; apply Hsame. }
  unfold appendInLineAttrs, withoutAttrs.
  cbn [goas set_goas opts Attrs fold_left].
  change (fold_left (fun b a => appendAttr rt (set_goas h (g ++ [goa])%list) b a false 0%nat)
            (Attrs r) (fold_left (FG (set_goas h (g ++ [goa])%list)) (g ++ [goa])%list buf)
          = fold_left (FG (set_goas h g)) g buf
              ++ (if negb (String.eqb (group goa) "") then
                    if Colorful (opts h) then " " ++ colorize cyan (group goa) ++ ":"
                    else " " ++ group goa ++ ":"
                  else "")
              ++ fold_left (fun b a => appendAttr rt h b a false 0%nat) (attrs goa) ""
              ++ fold_left (fun b a => appendAttr rt h b a false 0%nat) (Attrs r) "").
  rewrite !HFG.
  rewrite (fold_left_ext_In _ (fun b a => appendAttr rt h b a false 0%nat)
             (Attrs r)) by (intros; apply Hsame).
  rewrite fold_left_app. cbn [fold_left]. unfold FG at 1.
  rewrite Hattrs, (Hattrs _ (attrs goa)).
  destruct (negb (String.eqb (group goa) ""));
    [destruct (Colorful (opts h))|];
    rewrite ?append_nil_r, ?append_assoc; reflexivity.
Qed.

(** X16.  Multiline mode: for a chain with one more element, the text of
    the chain is the text of the shorter chain followed by the new element,
    written one indentation step deeper for every group marker of the
    shorter chain: a group label without line break, or a newline and the
    attributes of the batch. *)
Theorem X16_multiline_chain_extends (h : SlogPretty) (g : list groupOrAttrs)
    (goa : groupOrAttrs) (buf : bytes) (level : nat) :
  appendMultilineGroupOrAttrs rt (set_goas h (g ++ [goa])%list) buf level =
  let base := appendMultilineGroupOrAttrs rt (set_goas h g) buf level in
  let lv := (level + markers g)%nat in
  if negb (String.eqb (group goa) "") then
    base ++ Repeat "  " lv ++ colorize magenta (group goa) ++ ":"
  else
    fold_left (fun b a => appendAttr rt h b a true lv) (attrs goa)
              (if (0 <? length (attrs goa))%nat then base ++ nl else base).
Proof.
  pose (ST := fun (hh : SlogPretty) (st : bytes * nat) (goa0 : groupOrAttrs) =>
          let '(buf, level) := st in
          if negb (String.eqb (group goa0) "") then
            (buf ++ Repeat "  " level ++ colorize magenta (group goa0) ++ ":",
             (level + 1)%nat)
          else
            let buf :=
              if (0 <? length (attrs goa0))%nat then buf ++ nl else buf in
            (fold_left (fun buf a => appendAttr rt hh buf a true level)
                       (attrs goa0) buf,
             level)).
  assert (HST : forall g' (l : list groupOrAttrs) st,
             fold_left (ST (set_goas h g')) l st = fold_left (ST h) l st).
  { intros g' l st. apply fold_left_ext_In. intros [b lv] goa' _. unfold ST.
    destruct (negb (String.eqb (group goa') "")); [reflexivity|].
    f_equal. apply fold_left_ext_In. intros. now apply appendAttr_same_opts. }
  assert (Hsnd : forall (l : list groupOrAttrs) b lv,
             snd (fold_left (ST h) l (b, lv)) = (lv + markers l)%nat).
  { induction l as [|x l IH]; intros b lv; cbn [fold_left].
    - unfold markers. simpl. lia.
    - unfold ST at 2. unfold markers. cbn [List.filter].
      destruct (negb (String.eqb (group x) "")); rewrite IH;
        unfold markers; simpl; lia. }
  unfold appendMultilineGroupOrAttrs. cbn [goas set_goas]. cbv zeta.
  change (fst (fold_left (ST (set_goas h (g ++ [goa])%list)) (g ++ [goa])%list
                         (buf, level)) =
          if negb (String.eqb (group goa) "") then
            fst (fold_left (ST (set_goas h g)) g (buf, level))
              ++ Repeat "  " (level + markers g) ++ colorize magenta (group goa) ++ ":"
          else
            fold_left (fun b a => appendAttr rt h b a true (level + markers g)%nat)
              (attrs goa)
              (if (0 <? length (attrs goa))%nat
               then fst (fold_left (ST (set_goas h g)) g (buf, level)) ++ nl
               else fst (fold_left (ST (set_goas h g)) g (buf, level)))).
  rewrite !HST, fold_left_app. cbn [fold_left].
  pose proof (Hsnd g buf level) as Hlv.
  destruct (fold_left (ST h) g (buf, level)) as [b1 lv1].
  cbn [snd] in Hlv. subst lv1. cbn [fst]. unfold ST.
  destruct (negb (String.eqb (group goa) "")); reflexivity.
Qed.

End ChainText.

(** ** Further properties: derivation followed by [Handle] *)

(** X17.  A handler that [WithAttrs] has just made, from a non-empty batch,
    is never trimmed.  When the mutex is free and the sink exists, [Handle]
    on it returns for every record, with attributes or without; it writes
    the line rendered from the whole chain, the parent's chain followed by
    the batch; and every handler of the store, itself and its parent
    included, is afterwards as it was. *)
Theorem X17_bound_batch_is_kept (rt : Runtime) (w : World) (hp : ptr)
    (h : SlogPretty) (batch : list Attr) (wr : Writer) (r : Record_) :
  handlers w !! hp = Some h ->
  batch <> [] ->
  mutexes w !! mu h = Some false ->
  writers w !! out h = Some wr ->
  exists p' w1 h' w2,
    WithAttrs hp batch w = Some (p', w1)
    /\ handlers w1 !! p' = Some h'
    /\ goas h' = (goas h ++ [{| group := ""; attrs := batch |}])%list
    /\ Handle rt p' r w1 =
         Some (snd (accept wr (stream wr) (renderLine rt h' h' r)), w2)
    /\ handlers w2 = handlers w1
    /\ handlers w2 !! hp = Some h
    /\ events w2 = (events w ++ [EvLock (mu h);
                                 EvWrite (out h) (renderLine rt h' h' r);
                                 EvUnlock (mu h)])%list.
Proof.
  intros Hh Hne Hm Hw. unfold WithAttrs.
  pose proof (lookup_lt_Some _ _ _ Hh) as Hlt.
  destruct batch as [|a batch]; [now elim Hne|]. simpl.
  rewrite (withGroupOrAttrs_run w hp h _ Hh).
  set (h' := set_goas h (goas h ++ [{| group := ""; attrs := a :: batch |}])%list).
  set (w1 := {| handlers := (handlers w ++ [h'])%list;
                options := options w; mutexes := mutexes w;
                writers := writers w; events := events w |}).
  assert (Hh' : handlers w1 !! length (handlers w) = Some h').
  { cbn [handlers w1]. rewrite lookup_app_r by lia. now rewrite Nat.sub_diag. }
  assert (Hfix : set_goas h' (effectiveChain h' r) = h').
  { rewrite effectiveChain_fixed; [apply set_goas_same|].
    cbn [goas set_goas h']. unfold endsInBatch. now rewrite last_snoc. }
  pose proof (Handle_run rt w1 (length (handlers w)) h' r wr Hh' Hm Hw) as Hrun.
  cbv zeta in Hrun. rewrite Hfix in Hrun.
  eexists _, w1, h', _. split; [reflexivity|]. split; [exact Hh'|].
  split; [reflexivity|]. split; [exact Hrun|]. cbn [handlers events].
  unfold ptr in *.
  rewrite (list_insert_id _ _ _ Hh').
  split; [reflexivity|]. split; [|reflexivity].
  cbn [handlers w1]. now rewrite lookup_app_l by lia.
Qed.

(** The scenario of a logger bound to a group and then to attributes, with
    a record without attributes: the line carries the group and the
    attribute, and the chains are as they were. *)
Lemma X17_witness :
  handlers (worldOf multilineOptions [userGroup] okWriter) !! 0%nat
    = Some {| opts := multilineOptions; goas := [userGroup];
              out := 0%nat; mu := 0%nat |}
  /\ idBob <> []
  /\ mutexes (worldOf multilineOptions [userGroup] okWriter) !! 0%nat
     = Some false
  /\ writers (worldOf multilineOptions [userGroup] okWriter) !! 0%nat
     = Some okWriter
  /\ exists p' w1 w2,
       WithAttrs 0%nat idBob (worldOf multilineOptions [userGroup] okWriter)
         = Some (p', w1)
       /\ Handle sampleRuntime p' emptyRecord w1 = Some (None, w2)
       /\ chainOf w2 p' = Some [userGroup; {| group := ""; attrs := idBob |}]
       /\ chainOf w2 0%nat = Some [userGroup]
       /\ List.map stream (writers w2)
          = ["2006-01-02 15:04:05.000 " ++ colorize lightCyan "INFO" ++ " "
               ++ colorize white "ping" ++ "  " ++ colorize magenta "user"
               ++ ":" ++ nl ++ "    " ++ colorize 0 "id" ++ ": "
               ++ colorize 0 "bob" ++ nl ++ nl].
Proof.
  split; [reflexivity|]. split; [discriminate|].
  split; [reflexivity|]. split; [reflexivity|].
  destruct (X17_bound_batch_is_kept sampleRuntime
              (worldOf multilineOptions [userGroup] okWriter) 0%nat
              {| opts := multilineOptions; goas := [userGroup];
                 out := 0%nat; mu := 0%nat |}
              idBob okWriter emptyRecord
              eq_refl ltac:(discriminate) eq_refl eq_refl)
    as (p' & w1 & h' & w2 & Hderive & Hh' & Hg & Hrun & Hsame & Hparent & _).
  exists p', w1, w2.
  vm_compute in Hderive. injection Hderive as <- <-.
  vm_compute in Hh'. injection Hh' as <-.
  vm_compute in Hrun. injection Hrun as <-.
  repeat split.
Defined.

(** X18.  For a record without time and without caller, the header is the
    level and the message and depends on no option: the level of a named
    level and the message carry their colour codes whether colours are on
    or off, and [AddSource] adds nothing. *)
Theorem X18_header_without_time_and_caller (rt : Runtime) (h h' : SlogPretty)
    (buf : bytes) (r : Record_) :
  Time_ r = 0 -> PC r = 0 ->
  appendHeader rt h buf r = appendHeader rt h' buf r
  /\ appendHeader rt h buf r =
     buf ++ padRight7 (setColorLevel h (Level_ r)) ++ " "
         ++ colorize white (Message r).
Proof.
  intros Ht Hpc. unfold appendHeader, Time_IsZero, setColorLevel.
  rewrite Ht, Hpc. simpl. rewrite !andb_false_r.
  split; now rewrite ?append_assoc.
Qed.

Lemma X18_witness :
  Time_ {| Time_ := 0; Message := "m"; Level_ := LevelWarn; PC := 0;
           Attrs := [] |} = 0
  /\ PC {| Time_ := 0; Message := "m"; Level_ := LevelWarn; PC := 0;
           Attrs := [] |} = 0
  /\ appendHeader sampleRuntime (sampleHandler plainOptions) ""
       {| Time_ := 0; Message := "m"; Level_ := LevelWarn; PC := 0;
          Attrs := [] |}
     = appendHeader sampleRuntime (sampleHandler callerOptions) ""
         {| Time_ := 0; Message := "m"; Level_ := LevelWarn; PC := 0;
            Attrs := [] |}.
Proof.
  split; [reflexivity|]. split; [reflexivity|].
  apply (X18_header_without_time_and_caller sampleRuntime
           (sampleHandler plainOptions) (sampleHandler callerOptions) ""
           {| Time_ := 0; Message := "m"; Level_ := LevelWarn; PC := 0;
              Attrs := [] |} eq_refl eq_refl).
Defined.

(** ** Further properties: the first handler *)

Lemma membersKeyed_resolveLoop (orig : Value) (i : nat) :
  forall v, membersKeyed v = true ->
            membersKeyed (resolveLoop orig i v) = true.
Proof.
  induction i as [|i IH]; intros v Hv; simpl; [reflexivity|].
  destruct v; try exact Hv. apply IH. exact Hv.
Qed.

Section FirstHandler.

Context (rt : Runtime).

Lemma ColorText_appendAttr_body_ext self1 self2 ch buf (a : Attr) :
  (forall ga attrs, Resolve (Val a) = GroupValue attrs -> In ga attrs ->
                    forall b, self1 b ga = self2 b ga) ->
  ColorText.appendAttr_body rt self1 ch buf a =
  ColorText.appendAttr_body rt self2 ch buf a.
Proof.
  intros H. unfold ColorText.appendAttr_body, Key, Val in *. cbn [fst snd].
  destruct (Attr_Equal rt (fst a, Resolve (snd a)) zeroAttr); [reflexivity|].
  destruct (Resolve (snd a)) as [| | | | | | |l| |] eqn:E; try reflexivity.
  destruct (length l =? 0)%nat; [reflexivity|].
  apply fold_left_ext_In. intros b x Hx. now apply (H x l).
Qed.

Lemma ColorText_appendAttr_rec_enough (n : nat) :
  forall m ch buf (a : Attr),
    (depth (Val a) < n)%nat -> (depth (Val a) < m)%nat ->
    ColorText.appendAttr_rec rt n ch buf a =
    ColorText.appendAttr_rec rt m ch buf a.
Proof.
  induction n as [|n IH]; intros m ch buf a Hn Hm; [lia|].
  destruct m as [|m]; [lia|]. simpl.
  apply ColorText_appendAttr_body_ext. intros ga l E Hin b.
  pose proof (depth_member l ga Hin) as Hd.
  pose proof (depth_Resolve (Val a)) as Hr. rewrite E in Hr.
  apply IH; lia.
Qed.

(** The equation of the source for the first handler's [appendAttr]. *)
Lemma ColorText_appendAttr_unfold ch buf (a : Attr) :
  ColorText.appendAttr rt ch buf a =
  ColorText.appendAttr_body rt (ColorText.appendAttr rt ch) ch buf a.
Proof.
  unfold ColorText.appendAttr at 1. simpl.
  apply ColorText_appendAttr_body_ext. intros ga l E Hin b.
  unfold ColorText.appendAttr.
  pose proof (depth_member l ga Hin) as Hd.
  pose proof (depth_Resolve (Val a)) as Hr. rewrite E in Hr.
  apply ColorText_appendAttr_rec_enough; lia.
Qed.

Lemma ColorText_appendAttr_rec_eq (n : nat) :
  forall (ch : ColorText.ColorTextHandler) (h : SlogPretty) buf (a : Attr)
         level,
    ColorText.opts ch = opts h ->
    Key a <> "" -> membersKeyed (Val a) = true ->
    ColorText.appendAttr_rec rt n ch buf a =
    appendAttr_rec rt n h buf a false level.
Proof.
  induction n as [|n IH]; intros ch h buf a level Ho Hk Hm; [reflexivity|].
  simpl. unfold ColorText.appendAttr_body, appendAttr_body, Key, Val in *.
  rewrite Ho. cbn [fst snd].
  destruct (Attr_Equal rt (fst a, Resolve (snd a)) zeroAttr); [reflexivity|].
  pose proof (membersKeyed_resolveLoop (snd a) maxLogValues (snd a) Hm) as Hr.
  fold (Resolve (snd a)) in Hr.
  destruct (Resolve (snd a)) as [| | | | | | |l| |]; try reflexivity.
  destruct (length l =? 0)%nat; [reflexivity|].
  apply String.eqb_neq in Hk. rewrite Hk. cbn [negb].
  apply fold_left_ext_In. intros b x Hx.
  cbn [membersKeyed] in Hr. rewrite forallb_forall in Hr.
  specialize (Hr x Hx). apply andb_prop in Hr. destruct Hr as [Hkx Hmx].
  apply IH; [exact Ho | | exact Hmx].
  apply String.eqb_neq. now destruct (String.eqb (fst x) "").
Qed.

(** X19.  On an attribute with a key, all of whose members at every depth
    have keys, the first handler writes what the present handler writes in
    inline mode, at any level, given the same options. *)
Theorem X19_first_formatter_agrees_inline (ch : ColorText.ColorTextHandler)
    (h : SlogPretty) buf (a : Attr) level :
  ColorText.opts ch = opts h ->
  Key a <> "" -> membersKeyed (Val a) = true ->
  ColorText.appendAttr rt ch buf a = appendAttr rt h buf a false level.
Proof. intros Ho Hk Hm. now apply ColorText_appendAttr_rec_eq. Qed.

(** X20.  The two handlers differ on a group without key.  The first
    handler writes its members in its place, without a label; the present
    handler, in inline mode, writes a label with an empty name before
    them. *)
Theorem X20_group_without_key (ch : ColorText.ColorTextHandler)
    (h : SlogPretty) buf (x : Attr) (l : list Attr) level :
  let keyColor := if negb (Colorful (opts h)) then 0 else lightMagenta in
  ColorText.appendAttr rt ch buf ("", GroupValue (x :: l)) =
    fold_left (fun b ga => ColorText.appendAttr rt ch b ga) (x :: l) buf
  /\ appendAttr rt h buf ("", GroupValue (x :: l)) false level =
     fold_left (fun b ga => appendAttr rt h b ga false 2%nat) (x :: l)
               (buf ++ " " ++ colorize keyColor "" ++ ":").
Proof.
  intros keyColor. split.
  - rewrite ColorText_appendAttr_unfold.
    unfold ColorText.appendAttr_body, Attr_Equal.
    cbn [Key Val fst snd zeroAttr].
    rewrite Resolve_resolved by discriminate.
    cbn [Value_Equal]. rewrite andb_false_r. reflexivity.
  - rewrite appendAttr_unfold. unfold appendAttr_body, Attr_Equal.
    cbn [Key Val fst snd zeroAttr].
    rewrite Resolve_resolved by discriminate.
    cbn [Value_Equal]. rewrite andb_false_r. reflexivity.
Qed.

(** X21.  When the caller is not written (no [AddSource], or a record
    without caller) and every attribute of the record has keys throughout,
    the first handler and the earlier handler in single-line mode, with the
    same options, sink and mutex, write the same line: [Handle] gives the
    same result and the same store. *)
Theorem X21_first_and_earlier_handler (ch : ColorText.ColorTextHandler)
    (sh : Styler.SlogStylerHandler) (r : Record_) (w : World) :
  ColorText.opts ch = Styler.opts sh ->
  ColorText.out ch = Styler.out sh ->
  ColorText.mu ch = Styler.mu sh ->
  Multiline (Styler.opts sh) = false ->
  AddSource (Styler.opts sh) && negb (PC r =? 0) = false ->
  (forall a, In a (Attrs r) -> Key a <> "" /\ membersKeyed (Val a) = true) ->
  ColorText.renderLine rt ch r = Styler.renderLine rt sh r
  /\ ColorText.Handle rt ch r w = Styler.Handle rt sh r w.
Proof.
  intros Ho Hout Hmu Hml Hsrc Hkeys.
  assert (Hline : ColorText.renderLine rt ch r = Styler.renderLine rt sh r).
  { unfold ColorText.renderLine, Styler.renderLine,
      ColorText.setColorLevel, Styler.setColorLevel, Styler.appendInLineAttrs.
    rewrite Ho, Hml, Hsrc. f_equal.
    apply fold_left_ext_In. intros b a Ha.
    destruct (Hkeys a Ha) as [Hk Hm].
    unfold ColorText.appendAttr, Styler.appendAttr.
    rewrite (ColorText_appendAttr_rec_eq _ ch
               {| opts := Styler.opts sh; goas := []; out := 0%nat; mu := 0%nat |}
               b a 0%nat Ho Hk Hm).
    symmetry. now apply Styler_appendAttr_rec_eq. }
  split; [exact Hline|].
  unfold ColorText.Handle, Styler.Handle. now rewrite Hline, Hout, Hmu.
Qed.

End FirstHandler.

Lemma X19_witness :
  ColorText.opts {| ColorText.opts := plainOptions; ColorText.out := 0%nat;
                    ColorText.mu := 0%nat |}
    = opts (sampleHandler plainOptions)
  /\ Key ("details", GroupValue idBob) <> ""
  /\ membersKeyed (Val ("details", GroupValue idBob)) = true
  /\ ColorText.appendAttr sampleRuntime
       {| ColorText.opts := plainOptions; ColorText.out := 0%nat;
          ColorText.mu := 0%nat |}
       "" ("details", GroupValue idBob)
     = appendAttr sampleRuntime (sampleHandler plainOptions)
         "" ("details", GroupValue idBob) false 0.
Proof.
  split; [reflexivity|]. split; [discriminate|]. split; [reflexivity|].
  apply (X19_first_formatter_agrees_inline sampleRuntime
           {| ColorText.opts := plainOptions; ColorText.out := 0%nat;
              ColorText.mu := 0%nat |}
           (sampleHandler plainOptions) "" ("details", GroupValue idBob)
           0%nat eq_refl ltac:(discriminate) eq_refl).
Defined.

Lemma X21_witness :
  Multiline plainOptions = false
  /\ AddSource plainOptions && negb (PC serverStarted =? 0) = false
  /\ ColorText.renderLine sampleRuntime
       {| ColorText.opts := plainOptions; ColorText.out := 0%nat;
          ColorText.mu := 0%nat |} serverStarted
     = Styler.renderLine sampleRuntime
         {| Styler.opts := plainOptions; Styler.out := 0%nat;
            Styler.mu := 0%nat |} serverStarted.
Proof.
  split; [reflexivity|]. split; [reflexivity|].
  apply (X21_first_and_earlier_handler sampleRuntime
           {| ColorText.opts := plainOptions; ColorText.out := 0%nat;
              ColorText.mu := 0%nat |}
           {| Styler.opts := plainOptions; Styler.out := 0%nat;
              Styler.mu := 0%nat |}
           serverStarted (worldOf plainOptions [] okWriter)
           eq_refl eq_refl eq_refl eq_refl eq_refl).
  intros a [<-|[]]. split; [discriminate | reflexivity].
Defined.

(** ** Further properties: the end of a multiline record *)

(** X22.  In multiline mode a record whose attributes give any text is
    written with an empty line at its end: the lines of the attributes end
    in a newline each, and [Handle] adds the newline that closes the
    record. *)
Theorem X22_multiline_record_ends_blank (rt : Runtime) (h0 h : SlogPretty)
    (r : Record_) :
  Multiline (opts h) = true ->
  fold_left (fun b a => appendAttr rt h b a true 1%nat) (Attrs r) "" <> "" ->
  exists body, renderLine rt h0 h r = body ++ nl ++ nl.
Proof.
  intros Hml Htext. unfold renderLine. rewrite Hml.
  unfold appendMultilineAttrs.
  assert (Hcount : forall (l : list Attr) k,
             fold_left (fun n _ => S n) l k = (length l + k)%nat).
  { induction l as [|x l IH]; intros k; simpl; [reflexivity|].
    rewrite IH. lia. }
  rewrite Hcount.
  destruct (Attrs r) as [|a l] eqn:E; [now elim Htext|].
  cbn [length Nat.add Nat.eqb].
  assert (Hwl : wholeLines
            (fold_left (fun b x => appendAttr rt h b x true 1%nat) (a :: l) "")).
  { apply wholeLines_fold.
    - intros x _ b. apply appendAttr_appends.
    - intros x _. apply (appendAttr_wholeLines_upto rt (depth (Val x))). lia.
    - now left. }
  destruct Hwl as [Hnil|[t Ht]]; [now elim Htext|].
  unfold bytes in *.
  match goal with
  | |- context [fold_left ?f (a :: l) (?b ++ nl)] =>
      rewrite (fold_left_appends f (a :: l)
                 (fun x _ b' => appendAttr_appends rt h b' x true 1%nat)
                 (b ++ nl))
  end.
  rewrite Ht. eexists. rewrite <- !append_assoc. reflexivity.
Qed.

Lemma X22_witness :
  Multiline (opts (sampleHandler multilineOptions)) = true
  /\ fold_left (fun b a => appendAttr sampleRuntime (sampleHandler multilineOptions)
                              b a true 1%nat)
               (Attrs serverStarted) "" <> ""
  /\ exists body,
       renderLine sampleRuntime (sampleHandler multilineOptions)
                  (sampleHandler multilineOptions) serverStarted
       = body ++ nl ++ nl.
Proof.
  split; [reflexivity|]. split; [vm_compute; discriminate|].
  apply (X22_multiline_record_ends_blank sampleRuntime
           (sampleHandler multilineOptions) (sampleHandler multilineOptions)
           serverStarted eq_refl).
  vm_compute. discriminate.
Defined.

(** ** Further properties: colours add escape sequences and nothing else *)

Lemma hasEscape_app (a b : string) :
  hasEscape (a ++ b) = hasEscape a || hasEscape b.
Proof.
  induction a as [|c a IH]; simpl; [reflexivity|].
  now rewrite IH, orb_assoc.
Qed.

Lemma isDigit_not_esc (c : ascii) :
  isDigit c = true -> Ascii.eqb c (ascii_of_nat 27) = false.
Proof.
  intros Hd. destruct (Ascii.eqb_spec c (ascii_of_nat 27)) as [->|]; auto.
Qed.

Lemma stripGo_clean (s : string) :
  hasEscape s = false ->
  forall t, stripGo Plain (s ++ t) = s ++ stripGo Plain t.
Proof.
  induction s as [|c s IH]; intros Hs t; [reflexivity|].
  simpl in Hs. apply orb_false_elim in Hs. destruct Hs as [Hc Hs].
  simpl. rewrite Hc. now rewrite IH.
Qed.

Lemma stripGo_code (ds : string) :
  allDigits ds = true ->
  forall d0 t, stripGo (InCode d0) (ds ++ "m" ++ t) = stripGo Plain t.
Proof.
  induction ds as [|c ds IH]; intros Hd d0 t; [reflexivity|].
  simpl in Hd. apply andb_prop in Hd. destruct Hd as [Hc Hd].
  cbn [append stripGo]. rewrite (isDigit_not_esc c Hc), Hc. now apply IH.
Qed.

Lemma stripGo_open (rest : string) :
  stripGo Plain (esc ++ "[" ++ rest) = stripGo (InCode "") rest.
Proof. reflexivity. Qed.

Lemma stripGo_reset (t : string) : stripGo Plain (reset ++ t) = stripGo Plain t.
Proof. reflexivity. Qed.

Lemma strip_colorize (c : Z) (v t : string) :
  allDigits (Itoa c) = true -> hasEscape v = false ->
  stripEscapes (colorize c v ++ t) = v ++ stripEscapes t.
Proof.
  intros Hc Hv. unfold stripEscapes, colorize.
  rewrite !append_assoc, stripGo_open, (stripGo_code (Itoa c) Hc).
  now rewrite (stripGo_clean v Hv), stripGo_reset.
Qed.

Lemma sameText_clean (s : string) : hasEscape s = false -> sameText s s.
Proof.
  intros Hs. exists s. intros t. unfold stripEscapes.
  now rewrite (stripGo_clean s Hs).
Qed.

Lemma sameText_app (a b a' b' : string) :
  sameText a b -> sameText a' b' -> sameText (a ++ a') (b ++ b').
Proof.
  intros [s Hs] [s' Hs']. exists (s ++ s'). intros t.
  rewrite !append_assoc.
  rewrite (proj1 (Hs (a' ++ t))), (proj2 (Hs (b' ++ t))).
  now rewrite (proj1 (Hs' t)), (proj2 (Hs' t)).
Qed.

Lemma sameText_colorize (c c' : Z) (v : string) :
  allDigits (Itoa c) = true -> allDigits (Itoa c') = true ->
  hasEscape v = false ->
  sameText (colorize c v) (colorize c' v).
Proof.
  intros Hc Hc' Hv. exists v. intros t.
  now rewrite !strip_colorize.
Qed.

Lemma sameText_colorize_plain (c : Z) (v : string) :
  allDigits (Itoa c) = true -> hasEscape v = false ->
  sameText (colorize c v) v.
Proof.
  intros Hc Hv. exists v. intros t. rewrite strip_colorize by assumption.
  unfold stripEscapes. now rewrite (stripGo_clean v Hv).
Qed.

Lemma sameText_strip (a b : string) :
  sameText a b -> stripEscapes a = stripEscapes b.
Proof.
  intros [s Hs]. destruct (Hs "") as [Ha Hb].
  rewrite !append_nil_r in Ha, Hb. congruence.
Qed.

Lemma sameText_fold {A} (f g : string -> A -> string) (l : list A) :
  (forall x, In x l -> forall b, f b x = b ++ f "" x) ->
  (forall x, In x l -> forall b, g b x = b ++ g "" x) ->
  (forall x, In x l -> sameText (f "" x) (g "" x)) ->
  forall a b, sameText a b -> sameText (fold_left f l a) (fold_left g l b).
Proof.
  induction l as [|x l IH]; intros Hf Hg Hs a b Hab; simpl; [exact Hab|].
  apply IH.
  - intros y Hy. apply Hf. now right.
  - intros y Hy. apply Hg. now right.
  - intros y Hy. apply Hs. now right.
  - rewrite (Hf x (or_introl eq_refl) a), (Hg x (or_introl eq_refl) b).
    apply sameText_app; [exact Hab|]. apply Hs. now left.
Qed.

Lemma hasEscape_uint (d : Decimal.uint) :
  hasEscape (NilEmpty.string_of_uint d) = false.
Proof. induction d; simpl; auto. Qed.

Lemma hasEscape_Itoa (z : Z) : hasEscape (Itoa z) = false.
Proof.
  unfold Itoa, NilZero.string_of_int, NilZero.string_of_uint.
  destruct (Z.to_int z) as [d|d]; destruct d; simpl;
    auto using hasEscape_uint.
Qed.

Lemma hasEscape_Repeat_spaces (s : string) (n : nat) :
  hasEscape s = false -> hasEscape (Repeat s n) = false.
Proof.
  intros Hs. induction n as [|n IH]; simpl; [reflexivity|].
  now rewrite hasEscape_app, Hs, IH.
Qed.

Lemma hasEscape_Level_String (l : slog.Level) :
  hasEscape (Level_String l) = false.
Proof.
  unfold Level_String, signed.
  repeat match goal with
         | |- context [if ?c then _ else _] => destruct c
         end;
    rewrite ?hasEscape_app, ?hasEscape_Itoa; reflexivity.
Qed.

Lemma cleanValue_resolveLoop (orig : Value) (i : nat) :
  cleanValue orig = true ->
  forall v, cleanValue v = true -> cleanValue (resolveLoop orig i v) = true.
Proof.
  intros Ho. induction i as [|i IH]; intros v Hv; simpl.
  - destruct orig; try reflexivity. simpl in Ho.
    apply andb_prop in Ho. destruct Ho as [Ho _].
    apply andb_prop in Ho. destruct Ho as [Ho _]. exact Ho.
  - destruct v; try exact Hv. apply IH. simpl in Hv.
    apply andb_prop in Hv. now destruct Hv.
Qed.

Ltac clean_base rt Hrt :=
  solve [ assumption
        | reflexivity
        | apply hasEscape_Itoa
        | apply hasEscape_Level_String
        | apply hasEscape_Repeat_spaces; reflexivity
        | apply (clean_float_String rt Hrt)
        | apply (clean_duration_String rt Hrt)
        | apply (clean_callerFrame rt Hrt)
        | apply (clean_time_Format rt Hrt); assumption
        | apply (clean_strconv_Quote rt Hrt); first
            [ assumption | apply (clean_time_Format rt Hrt); assumption ] ].

Ltac clean_tac rt Hrt :=
  solve [ clean_base rt Hrt
        | rewrite !hasEscape_app;
          repeat (apply orb_false_intro); clean_base rt Hrt ].

Ltac same_text rt Hrt :=
  repeat first
    [ apply sameText_colorize; [reflexivity | reflexivity | clean_tac rt Hrt]
    | apply sameText_colorize_plain; [reflexivity | clean_tac rt Hrt]
    | apply sameText_clean; clean_tac rt Hrt
    | apply sameText_app ].

Section ColoursOnly.

Context (rt : Runtime) (Hrt : cleanRuntime rt).
Context (h : SlogPretty) (Hfmt : hasEscape (TimeFormat (opts h)) = false).

Lemma sameText_appendAttr_upto (n : nat) :
  forall (a : Attr) multiline level,
    (depth (Val a) <= n)%nat -> cleanAttr a = true ->
    sameText (appendAttr rt (withColorful true h) "" a multiline level)
             (appendAttr rt (withColorful false h) "" a multiline level).
Proof.
  induction n as [|n IH]; intros a multiline level Hd Ha;
    rewrite !(appendAttr_unfold rt _ "" a);
    unfold appendAttr_body, cleanAttr, Key, Val in *;
    cbn [withColorful opts Colorful TimeFormat negb fst snd];
    apply andb_prop in Ha; destruct Ha as [Hk Hv];
    apply negb_true_iff in Hk;
    (destruct (Attr_Equal rt (fst a, Resolve (snd a)) zeroAttr);
       [now apply sameText_clean|]);
    pose proof (depth_Resolve (snd a)) as Hr;
    pose proof (cleanValue_resolveLoop (snd a) maxLogValues Hv (snd a) Hv) as Hc;
    fold (Resolve (snd a)) in Hc;
    destruct (Resolve (snd a)) as [s|i|u|f|b|d|t|l|x|x v'] eqn:E;
    cbn [cleanValue Value_String] in Hc;
    try (apply negb_true_iff in Hc);
    try (destruct multiline; same_text rt Hrt; fail).
  - destruct b; destruct multiline; same_text rt Hrt.
  - simpl in Hr. lia.
  - apply andb_prop in Hc. destruct Hc as [Hc _].
    apply andb_prop in Hc. destruct Hc as [_ Hc].
    apply negb_true_iff in Hc. destruct multiline; same_text rt Hrt.
  - destruct b; destruct multiline; same_text rt Hrt.
  - destruct (length l =? 0)%nat; [now apply sameText_clean|].
    assert (Hkids : forall ml lv (ga : Attr), In ga l ->
               sameText (appendAttr rt (withColorful true h) "" ga ml lv)
                        (appendAttr rt (withColorful false h) "" ga ml lv)).
    { intros ml lv ga Hin. apply IH.
      - pose proof (depth_member l ga Hin) as Hm. unfold Val in Hm. lia.
      - rewrite forallb_forall in Hc. exact (Hc ga Hin). }
    destruct multiline;
      (apply sameText_fold;
       [ intros x _ b'; apply appendAttr_appends
       | intros x _ b'; apply appendAttr_appends
       | intros x Hx; now apply Hkids
       | same_text rt Hrt ]).
  - apply andb_prop in Hc. destruct Hc as [Hc _].
    apply andb_prop in Hc. destruct Hc as [_ Hc].
    apply negb_true_iff in Hc. destruct multiline; same_text rt Hrt.
Qed.


Lemma sameText_fold2 {A} (f g : string -> A -> string) (l : list A) :
  (forall x, In x l -> forall a b, sameText a b -> sameText (f a x) (g b x)) ->
  forall a b, sameText a b -> sameText (fold_left f l a) (fold_left g l b).
Proof.
  induction l as [|x l IH]; intros H a b Hab; simpl; [exact Hab|].
  apply IH.
  - intros y Hy. apply H. now right.
  - apply H; [now left | exact Hab].
Qed.

Lemma sameText_attrs (l : list Attr) multiline level (a b : string) :
  forallb cleanAttr l = true -> sameText a b ->
  sameText
    (fold_left (fun buf x => appendAttr rt (withColorful true h) buf x
                                        multiline level) l a)
    (fold_left (fun buf x => appendAttr rt (withColorful false h) buf x
                                        multiline level) l b).
Proof.
  intros Hl Hab. apply sameText_fold2; [|exact Hab].
  intros x Hx a' b' Hab'. rewrite forallb_forall in Hl.
  rewrite (appendAttr_appends rt _ a'), (appendAttr_appends rt _ b').
  apply sameText_app; [exact Hab'|].
  apply (sameText_appendAttr_upto (depth (Val x))); [lia | exact (Hl x Hx)].
Qed.

Lemma sameText_header (r : Record_) :
  hasEscape (Message r) = false ->
  sameText (appendHeader rt (withColorful true h) "" r)
           (appendHeader rt (withColorful false h) "" r).
Proof.
  intros Hmsg. unfold appendHeader, setColorLevel, padRight7.
  cbn [withColorful opts Colorful TimeFormat AddSource].
  destruct (negb (Time_IsZero (Time_ r)));
    destruct (AddSource (opts h) && negb (PC r =? 0));
    destruct (Level_ r =? LevelDebug);
    destruct (Level_ r =? LevelInfo);
    destruct (Level_ r =? LevelWarn);
    destruct (Level_ r =? LevelError);
    same_text rt Hrt.
Qed.

Lemma sameText_inline_chain (g : list groupOrAttrs) (a b : string) :
  forallb cleanGoa g = true -> sameText a b ->
  sameText
    (fold_left
       (fun buf goa =>
          let buf :=
            if negb (String.eqb (group goa) "") then
              if Colorful (opts (withColorful true h)) then
                buf ++ " " ++ colorize cyan (group goa) ++ ":"
              else buf ++ " " ++ group goa ++ ":"
            else buf in
          fold_left (fun buf attr => appendAttr rt (withColorful true h) buf
                                                attr false 0%nat)
                    (attrs goa) buf)
       g a)
    (fold_left
       (fun buf goa =>
          let buf :=
            if negb (String.eqb (group goa) "") then
              if Colorful (opts (withColorful false h)) then
                buf ++ " " ++ colorize cyan (group goa) ++ ":"
              else buf ++ " " ++ group goa ++ ":"
            else buf in
          fold_left (fun buf attr => appendAttr rt (withColorful false h) buf
                                                attr false 0%nat)
                    (attrs goa) buf)
       g b).
Proof.
  intros Hg Hab. apply sameText_fold2; [|exact Hab].
  intros goa Hin a' b' Hab'. rewrite forallb_forall in Hg.
  specialize (Hg goa Hin). unfold cleanGoa in Hg.
  apply andb_prop in Hg. destruct Hg as [Hname Hattrs].
  apply negb_true_iff in Hname. cbv zeta.
  cbn [withColorful opts Colorful].
  apply sameText_attrs; [exact Hattrs|].
  destruct (negb (String.eqb (group goa) "")); [|exact Hab'].
  apply sameText_app; [exact Hab'|]. same_text rt Hrt.
Qed.

Lemma sameText_multiline_chain (g : list groupOrAttrs) :
  forallb cleanGoa g = true ->
  forall (a b : string) level, sameText a b ->
  sameText
    (fst (fold_left
       (fun (st : bytes * nat) goa =>
          let '(buf, level) := st in
          if negb (String.eqb (group goa) "") then
            (buf ++ Repeat "  " level ++ colorize magenta (group goa) ++ ":",
             (level + 1)%nat)
          else
            let buf :=
              if (0 <? length (attrs goa))%nat then buf ++ nl else buf in
            (fold_left (fun buf a => appendAttr rt (withColorful true h) buf a
                                                true level)
                       (attrs goa) buf,
             level))
       g (a, level)))
    (fst (fold_left
       (fun (st : bytes * nat) goa =>
          let '(buf, level) := st in
          if negb (String.eqb (group goa) "") then
            (buf ++ Repeat "  " level ++ colorize magenta (group goa) ++ ":",
             (level + 1)%nat)
          else
            let buf :=
              if (0 <? length (attrs goa))%nat then buf ++ nl else buf in
            (fold_left (fun buf a => appendAttr rt (withColorful false h) buf a
                                                true level)
                       (attrs goa) buf,
             level))
       g (b, level))).
Proof.
  induction g as [|goa g IH]; intros Hg a b level Hab; [exact Hab|].
  cbn [forallb] in Hg. apply andb_prop in Hg. destruct Hg as [Hgoa Hg].
  unfold cleanGoa in Hgoa. apply andb_prop in Hgoa.
  destruct Hgoa as [Hname Hattrs]. apply negb_true_iff in Hname.
  cbn [fold_left].
  destruct (negb (String.eqb (group goa) "")).
  - apply IH; [exact Hg|]. apply sameText_app; [exact Hab|].
    same_text rt Hrt.
  - apply IH; [exact Hg|]. apply sameText_attrs; [exact Hattrs|].
    destruct (0 <? length (attrs goa))%nat; [|exact Hab].
    apply sameText_app; [exact Hab|]. same_text rt Hrt.
Qed.

(** X23.  Switching colours on or off changes escape sequences and nothing
    else.  When the message, the group names, the keys and the string
    values hold no escape byte, and the library puts none into what it
    formats, the line [Handle] builds with colours on and the line it
    builds with colours off are the same once the escape sequences are
    removed from both. *)
Theorem X23_colours_change_escapes_only (r : Record_) :
  cleanRecord r = true ->
  forallb cleanGoa (goas h) = true ->
  stripEscapes (renderLine rt (withColorful true h) (withColorful true h) r) =
  stripEscapes (renderLine rt (withColorful false h) (withColorful false h) r).
Proof.
  intros Hr Hg. unfold cleanRecord in Hr.
  apply andb_prop in Hr. destruct Hr as [Hmsg Hattrs].
  apply negb_true_iff in Hmsg.
  apply sameText_strip. unfold renderLine.
  apply sameText_app; [|now apply sameText_clean].
  cbn [withColorful opts Multiline].
  pose proof (sameText_header r Hmsg) as Hhead.
  destruct (Multiline (opts h)).
  - unfold appendMultilineAttrs, appendMultilineGroupOrAttrs.
    cbn [withColorful goas].
    pose proof (sameText_multiline_chain (goas h) Hg _ _ 1%nat Hhead) as Hchain.
    destruct (fold_left (fun n _ => S n) (Attrs r) 0%nat =? 0)%nat;
      [exact Hchain|].
    apply sameText_attrs; [exact Hattrs|].
    apply sameText_app; [exact Hchain | now apply sameText_clean].
  - unfold appendInLineAttrs. cbn [withColorful goas].
    apply sameText_attrs; [exact Hattrs|].
    apply (sameText_inline_chain (goas h) _ _ Hg Hhead).
Qed.

End ColoursOnly.

Lemma hasEscape_quoteBody (s : string) :
  hasEscape s = false -> hasEscape (quoteBody s) = false.
Proof.
  induction s as [|c s IH]; intros Hs; [reflexivity|].
  simpl in Hs. apply orb_false_elim in Hs. destruct Hs as [Hc Hs].
  simpl. rewrite hasEscape_app, (IH Hs), orb_false_r.
  destruct (Ascii.eqb c (ascii_of_nat 34) || Ascii.eqb c (ascii_of_nat 92));
    simpl; now rewrite Hc.
Qed.

Lemma sampleRuntime_clean : cleanRuntime sampleRuntime.
Proof.
  constructor; simpl; auto.
  intros s Hs. now rewrite !hasEscape_app, (hasEscape_quoteBody s Hs).
Qed.

(** The sample record on a bound chain, with colours on and off. *)
Lemma X23_witness :
  hasEscape (TimeFormat plainOptions) = false
  /\ cleanRecord serverStarted = true
  /\ forallb cleanGoa sampleChain = true
  /\ stripEscapes
       (renderLine sampleRuntime
          (withColorful true {| opts := plainOptions; goas := sampleChain;
                                out := 0%nat; mu := 0%nat |})
          (withColorful true {| opts := plainOptions; goas := sampleChain;
                                out := 0%nat; mu := 0%nat |})
          serverStarted)
     = stripEscapes
         (renderLine sampleRuntime
            (withColorful false {| opts := plainOptions; goas := sampleChain;
                                   out := 0%nat; mu := 0%nat |})
            (withColorful false {| opts := plainOptions; goas := sampleChain;
                                   out := 0%nat; mu := 0%nat |})
            serverStarted).
Proof.
  split; [reflexivity|]. split; [reflexivity|]. split; [reflexivity|].
  apply (X23_colours_change_escapes_only sampleRuntime sampleRuntime_clean
           {| opts := plainOptions; goas := sampleChain;
              out := 0%nat; mu := 0%nat |}
           eq_refl serverStarted eq_refl eq_refl).
Defined.
